(** * Pinecone Assistant connector (api/pinecone-assistant.js, VS2)

    A shallow embedding of the serverless handler: the host cache, the
    host resolver ([getAssistantBase], [normalizeAssistantBase]), the
    dispatcher ([doFetch], [enrich]), the error normaliser and the action
    router ([handler]), followed by the properties the specification
    states about them.

    Conventions of the embedding.
    - A JS string is a [string] of bytes; header values and URLs are
      ASCII in the modelled fragment.
    - A JS number is an integer [Z]: the program computes with statuses,
      delays and timestamps only.  Where the code can leave the integers
      a double represents exactly (the value [parseInt] reads from a
      header, its product with 1000, the product with [Math.random()]),
      the result is rounded as IEEE 754 rounds it ([JS.round_double]).
      The outcome of [parseInt] is a [jsnum], which adds NaN and
      Infinity.
    - A request or response body is the value it parses to; a request
      sent carries the value whose [JSON.stringify] is its body.
    - The platform (network, clock, random source, process environment)
      is an [Env] of oracles and a [World] threaded through the code:
      the clock, the host cache and the trace of effects.
    - The [clock] of a world is what [Date.now()] reads when the run
      that starts in it begins.  The program reads the time once per
      resolution, as the first step of [getAssistantBase] and before it
      awaits anything, so no run observes the time its own fetches and
      sleeps take; the model does not advance the field, and the clock of
      the world a run ends in says nothing about the time at which it
      ended.  Successive runs are related by quantifying over the world
      the later one starts in.
    - A computation ends in [Ok], in [Throw], or in [Unmodelled] where it
      meets an input the model does not follow; nothing is stated about
      the last. *)

From Stdlib Require Import ZArith Ascii String DecimalString.
From stdpp Require Import gmap strings list.

Local Open Scope Z_scope.

(* stdpp freezes [String.append] under [simpl]; the string lemmas below
   unfold it. *)
#[local] Arguments String.append !_ _ /.

(** ** Strings *)

Module Str.

Definition eqb (a b : string) : bool := String.eqb a b.

(** [s.endsWith(suf)] *)
Fixpoint endsWith (s suf : string) : bool :=
  String.eqb s suf ||
  match s with
  | EmptyString => false
  | String _ r => endsWith r suf
  end.

Definition is_slash (c : ascii) : bool := Ascii.eqb c "/"%char.

(** [s.replace(/\/+$/, "")]: every trailing slash goes. *)
Fixpoint strip_trailing_slashes (s : string) : string :=
  match s with
  | EmptyString => EmptyString
  | String c r =>
      match strip_trailing_slashes r with
      | EmptyString => if is_slash c then EmptyString else String c EmptyString
      | r' => String c r'
      end
  end.

(** [s.replace(/\/$/, "")]: one trailing slash goes. *)
Fixpoint strip_one_trailing_slash (s : string) : string :=
  match s with
  | EmptyString => EmptyString
  | String c EmptyString => if is_slash c then EmptyString else s
  | String c r => String c (strip_one_trailing_slash r)
  end.

(** Split at the first character satisfying [stop]; the character stays
    at the head of the second component. *)
Fixpoint break (stop : ascii -> bool) (s : string) : string * string :=
  match s with
  | EmptyString => (EmptyString, EmptyString)
  | String c r =>
      if stop c then (EmptyString, s)
      else let '(a, b) := break stop r in (String c a, b)
  end.

Fixpoint forallb (p : ascii -> bool) (s : string) : bool :=
  match s with
  | EmptyString => true
  | String c r => p c && forallb p r
  end.

(** A string that is empty or begins with a stop character. *)
Definition stops_at (stop : ascii -> bool) (s : string) : bool :=
  match s with
  | EmptyString => true
  | String c _ => stop c
  end.

(** The last character of a string, when it has one. *)
Fixpoint last_char (s : string) : option ascii :=
  match s with
  | EmptyString => None
  | String c EmptyString => Some c
  | String _ r => last_char r
  end.

(** [s.split(sep)] for a one-character separator. *)
Fixpoint split (sep : ascii) (s : string) : list string :=
  match s with
  | EmptyString => [EmptyString]
  | String c r =>
      match split sep r with
      | [] => [EmptyString]
      | w :: ws =>
          if Ascii.eqb c sep then EmptyString :: w :: ws
          else String c w :: ws
      end
  end.

(** The rest of [s] after the prefix [p], when [s] starts with [p]. *)
Fixpoint strip_prefix (p s : string) : option string :=
  match p, s with
  | EmptyString, _ => Some s
  | String a p', String b s' =>
      if Ascii.eqb a b then strip_prefix p' s' else None
  | String _ _, EmptyString => None
  end.

(** [s.startsWith(p)] *)
Definition startsWith (s p : string) : bool :=
  match strip_prefix p s with Some _ => true | None => false end.

Definition of_Z (z : Z) : string := NilZero.string_of_int (Z.to_int z).

End Str.

(** ** Characters classes of the modelled URL fragment *)

Module Chr.

Definition between (lo hi : nat) (c : ascii) : bool :=
  (lo <=? nat_of_ascii c)%nat && (nat_of_ascii c <=? hi)%nat.

Definition lower (c : ascii) : bool := between 97 122 c.
Definition upper (c : ascii) : bool := between 65 90 c.
Definition digit (c : ascii) : bool := between 48 57 c.
Definition alnum (c : ascii) : bool := lower c || upper c || digit c.
Definition isc (x c : ascii) : bool := Ascii.eqb c x.

Definition host_char (c : ascii) : bool :=
  lower c || digit c || isc "-" c || isc "." c.
Definition path_char (c : ascii) : bool :=
  alnum c || isc "-" c || isc "_" c || isc "~" c || isc "/" c.
Definition query_char (c : ascii) : bool :=
  alnum c || isc "-" c || isc "_" c || isc "~" c || isc "/" c
  || isc "." c || isc "=" c || isc "&" c.

Definition host_end (c : ascii) : bool := isc "/" c || isc "?" c || isc "#" c.
Definition path_end (c : ascii) : bool := isc "?" c || isc "#" c.
Definition query_end (c : ascii) : bool := isc "#" c.

End Chr.

(** ** The platform's [URL] class, on a fragment of the WHATWG parser

    [new URL(s)] is modelled for inputs of the shape
    [scheme://host path? (?query)? (#fragment)?] with scheme [http] or
    [https], on which the WHATWG algorithm is the identity up to the
    default path [/]:
    - the host is a non-empty lower-case domain over [a-z0-9.-] whose
      last label starts with a letter (so it is no IPv4 number) and none
      of whose labels starts with [xn--] (so IDNA processing leaves it
      alone); no userinfo, no port;
    - the path is over [A-Za-z0-9-_~/] (no dot segments, nothing to
      percent-encode);
    - query and fragment are over [A-Za-z0-9-_~/.=&].
    On every other input the model answers [None]: the platform either
    throws a TypeError there or rewrites the input in ways this model
    does not follow, and no theorem below speaks about such inputs. *)

Module URL.

Record t := mk {
  scheme : string;            (* "http" or "https" *)
  host : string;
  path : string;              (* what [url.pathname] reads *)
  query : option string;      (* without the leading "?" *)
  fragment : option string;   (* without the leading "#" *)
}.

Definition scheme_ok (s : string) : bool :=
  Str.eqb s "https" || Str.eqb s "http".

Definition label_ok (l : string) : bool := negb (Str.startsWith l "xn--").

Definition last_label_ok (l : string) : bool :=
  match l with
  | EmptyString => false
  | String c _ => Chr.lower c
  end.

Definition host_ok (h : string) : bool :=
  let labels := Str.split "." h in
  Str.forallb Chr.host_char h
  && List.forallb label_ok labels
  && last_label_ok (List.last labels EmptyString).

Definition path_ok (p : string) : bool :=
  Str.startsWith p "/" && Str.forallb Chr.path_char p.

Definition opt_ok (o : option string) : bool :=
  match o with
  | None => true
  | Some q => Str.forallb Chr.query_char q
  end.

Definition ok (u : t) : bool :=
  scheme_ok (scheme u) && host_ok (host u) && path_ok (path u)
  && opt_ok (query u) && opt_ok (fragment u).

Definition parse_scheme (s : string) : option (string * string) :=
  match Str.strip_prefix "https://" s with
  | Some rest => Some ("https", rest)
  | None =>
      match Str.strip_prefix "http://" s with
      | Some rest => Some ("http", rest)
      | None => None
      end
  end.

(** What follows the path: an optional [?query] and an optional
    [#fragment]. *)
Definition parse_tail (s : string) : option (option string * option string) :=
  match s with
  | EmptyString => Some (None, None)
  | String c r =>
      if Chr.isc "#" c then Some (None, Some r)
      else if Chr.isc "?" c then
        match Str.break Chr.query_end r with
        | (q, EmptyString) => Some (Some q, None)
        | (q, String _ f) => Some (Some q, Some f)
        end
      else None
  end.

(** [new URL(input)] *)
Definition parse (input : string) : option t :=
  match parse_scheme input with
  | None => None
  | Some (sch, rest) =>
      let '(h, rest1) := Str.break Chr.host_end rest in
      let '(p, rest2) := Str.break Chr.path_end rest1 in
      match parse_tail rest2 with
      | None => None
      | Some (q, f) =>
          let u := mk sch h (match p with EmptyString => "/" | _ => p end) q f in
          if ok u then Some u else None
      end
  end.

(** [url.pathname = v] *)
Definition set_pathname (u : t) (v : string) : option t :=
  if path_ok v then Some (mk (scheme u) (host u) v (query u) (fragment u))
  else None.

Definition tail_of (q f : option string) : string :=
  match q with Some q => "?" +:+ q | None => "" end
  +:+ match f with Some f => "#" +:+ f | None => "" end.

Definition tail (u : t) : string := tail_of (query u) (fragment u).

(** [url.toString()] *)
Definition href (u : t) : string :=
  scheme u +:+ "://" +:+ host u +:+ path u +:+ tail u.

End URL.

(** ** Host normalisation (source lines 227-234) *)

(** [None]: [new URL] is outside the modelled fragment for this host;
    it does not say that the code throws. *)
Definition normalizeAssistantBase (host : string) : option string :=
  match (if Str.startsWith host "http" then URL.parse host
         else URL.parse ("https://" +:+ host)) with
  | None => None
  | Some url =>
      let path := Str.strip_trailing_slashes (URL.path url) in
      match URL.set_pathname url
              (if Str.endsWith path "/assistant" then path
               else path +:+ "/assistant") with
      | None => None
      | Some url' => Some (Str.strip_one_trailing_slash (URL.href url'))
      end
  end.

(** ** JavaScript values

    What [JSON.parse] can return, plus [undefined] and an opaque function
    object ([JFun]: what reading [filter] from an array gives).  Numbers
    are the integer-valued ones. *)

#[local] Set Warnings "-register-all".

Inductive json :=
| JUndefined
| JNull
| JBool (b : bool)
| JNum (n : Z)
| JStr (s : string)
| JArr (items : list json)
| JObj (fields : list (string * json))
| JFun.

(** The outcome of [parseInt]. *)
Inductive jsnum :=
| NaN
| Infinity (negative : bool)
| Fin (n : Z).

Module JS.

(** Truthiness: what [if (v)], [!v], [v ? a : b] and [Boolean(v)] test. *)
Definition truthy (v : json) : bool :=
  match v with
  | JUndefined | JNull => false
  | JBool b => b
  | JNum n => negb (n =? 0)
  | JStr s => negb (Str.eqb s "")
  | JArr _ | JObj _ | JFun => true
  end.

(** [a || b] *)
Definition or (a b : json) : json := if truthy a then a else b.

Definition nullish (v : json) : bool :=
  match v with
  | JUndefined | JNull => true
  | _ => false
  end.

(** [a ?? b] *)
Definition coalesce (a b : json) : json := if nullish a then b else a.

(** A destructuring default, [{ k = d } = obj]: [d] replaces [undefined]
    only. *)
Definition default (v d : json) : json :=
  match v with
  | JUndefined => d
  | _ => v
  end.

Fixpoint assoc (k : string) (fields : list (string * json)) : json :=
  match fields with
  | [] => JUndefined
  | (k', v) :: rest => if Str.eqb k k' then v else assoc k rest
  end.

(** [v.k] on a value that is neither [null] nor [undefined], for the
    property names this program reads: own fields of objects, [length] of
    strings and arrays, and [filter], which arrays inherit.  The length of
    a string is counted in bytes: it is zero exactly when the string is
    empty, which is all the program asks of it. *)
Definition get (v : json) (k : string) : json :=
  match v with
  | JObj fields => assoc k fields
  | JArr items =>
      if Str.eqb k "length" then JNum (Z.of_nat (length items))
      else if Str.eqb k "filter" then JFun
      else JUndefined
  | JStr s =>
      if Str.eqb k "length" then JNum (Z.of_nat (String.length s))
      else JUndefined
  | _ => JUndefined
  end.

(** [v?.k] *)
Definition get_opt (v : json) (k : string) : json :=
  if nullish v then JUndefined else get v k.

(** [String(v)], where the model follows it: arrays and functions are
    left out, and so are the numbers beyond [2^53], which print in their
    shortest form or in exponent notation and not digit by digit. *)
Definition to_string (v : json) : option string :=
  match v with
  | JUndefined => Some "undefined"
  | JNull => Some "null"
  | JBool true => Some "true"
  | JBool false => Some "false"
  | JNum n => if Z.abs n <=? 2 ^ 53 then Some (Str.of_Z n) else None
  | JStr s => Some s
  | JObj _ => Some "[object Object]"
  | JArr _ | JFun => None
  end.

(** [Number.isFinite(v)]: every number of the model is finite. *)
Definition isFinite (v : json) : bool :=
  match v with
  | JNum _ => true
  | _ => false
  end.

Definition hex_digit (n : nat) : ascii :=
  ascii_of_nat (if (n <? 10)%nat then 48 + n else 55 + n)%nat.

Definition uri_unreserved (c : ascii) : bool :=
  Chr.alnum c || Chr.isc "-" c || Chr.isc "_" c || Chr.isc "." c
  || Chr.isc "!" c || Chr.isc "~" c || Chr.isc "*" c || Chr.isc "'" c
  || Chr.isc "(" c || Chr.isc ")" c.

(** [encodeURIComponent(s)], on the UTF-8 bytes of [s]. *)
Fixpoint encodeURIComponent (s : string) : string :=
  match s with
  | EmptyString => EmptyString
  | String c r =>
      if uri_unreserved c then String c (encodeURIComponent r)
      else
        let n := nat_of_ascii c in
        String "%" (String (hex_digit (n / 16)) (String (hex_digit (n mod 16))
          (encodeURIComponent r)))
  end.

(** White space [parseInt] skips, among the characters a header value can
    hold (bytes, read as Latin-1). *)
Definition is_space (c : ascii) : bool :=
  let n := nat_of_ascii c in
  ((9 <=? n) && (n <=? 13) || (n =? 32) || (n =? 160))%nat.

Fixpoint skip_spaces (s : string) : string :=
  match s with
  | EmptyString => EmptyString
  | String c r => if is_space c then skip_spaces r else s
  end.

Definition digit_value (c : ascii) : Z := Z.of_nat (nat_of_ascii c) - 48.

(** The value of the longest prefix of decimal digits. *)
Fixpoint digits (s : string) (acc : Z) : Z :=
  match s with
  | EmptyString => acc
  | String c r => if Chr.digit c then digits r (acc * 10 + digit_value c) else acc
  end.

(** The least integer that rounds to [Infinity] as a double. *)
Definition double_overflow : Z := 2 ^ 1024 - 2 ^ 970.

(** The double nearest to a non-negative integer [v], ties to even: up to
    [2^53] every integer is a double; above, [v] lies between two
    neighbouring multiples of [2^e], and 53 significant bits remain.  The
    exponent is not bounded here: a result of [2^1024] or more stands
    for [Infinity]. *)
Definition round_double (v : Z) : Z :=
  if v <? 2 ^ 53 then v
  else
    let e := Z.log2 v - 52 in
    let q := v / 2 ^ e in
    let r := v mod 2 ^ e in
    let half := 2 ^ (e - 1) in
    (if r <? half then q
     else if half <? r then q + 1
     else if Z.even q then q else q + 1) * 2 ^ e.

Definition signed_digits (negative : bool) (s : string) : jsnum :=
  match s with
  | EmptyString => NaN
  | String c _ =>
      if Chr.digit c then
        let v := digits s 0 in
        if double_overflow <=? v then Infinity negative
        else Fin (if negative then - round_double v else round_double v)
      else NaN
  end.

(** [parseInt(s, 10)]: the number nearest to the integer the digits
    denote, as V8 computes it (the standard allows an approximation from
    the 21st significant digit on). *)
Definition parseInt (s : string) : jsnum :=
  match skip_spaces s with
  | String c r =>
      if Chr.isc "-" c then signed_digits true r
      else if Chr.isc "+" c then signed_digits false r
      else signed_digits false (String c r)
  | EmptyString => NaN
  end.

End JS.

(** ** The platform: network, clock, random source, process environment *)

(** What [fetch(url, opts)] is given.  [rq_body] is the value whose
    [JSON.stringify] is the body on the wire. *)
Record Request := mkRequest {
  rq_method : string;
  rq_url : string;
  rq_headers : list (string * string);
  rq_body : option json;
}.

(** What [fetch] resolves to. *)
Record Response := mkResponse {
  status : Z;
  statusText : string;
  url : string;
  retry_after : option string;   (* [resp.headers.get("retry-after")] *)
  body_json : option json;       (* [resp.json()]; [None]: it rejects *)
  body_text : option string;     (* [resp.text()] after a failed [json()] *)
}.

Inductive FetchResult :=
| NetworkError (message : string)
| Reply (resp : Response).

(** What the code throws: the error [enrich] builds (tagged [__http]) or
    an [Error]/[TypeError]/[SyntaxError] with its name and message.  The
    message of an error the engine raises is the engine's; the model
    fixes a representative text. *)
Inductive JsError :=
| HttpError (status : Z) (message : string) (details : json)
| NativeError (name message : string).

(** The oracles are indexed by the number of events the process has
    performed so far. *)
Record Env := mkEnv {
  PINECONE_API_KEY : option string;
  PINECONE_API_VERSION : option string;
  ALLOWED_ORIGINS : option string;
  MONEYPENNY_AUTH_TOKEN : option string;
  upstream : nat -> Request -> FetchResult;
  random_bits : nat -> Z;   (* [Math.random()] is [(random_bits k mod 2^53) / 2^53] *)
}.

(** Effects in the order they happen, most recent first.  A fetch carries
    the [retries] argument of the [doFetch] activation that issued it:
    2 on the first attempt of a call. *)
Inductive Event :=
| EvFetch (retries : nat) (req : Request)
| EvSleep (ms : Z)
| EvReadJson (resp : Response)
| EvReadText (resp : Response)
| EvConsoleError (err : JsError).

(** Keys of the [hostCache] Map: primitives are compared by value; an
    object or array is a fresh key in every request and has none. *)
Inductive CacheKey :=
| KStr (s : string)
| KNum (n : Z)
| KBool (b : bool)
| KNull
| KUndefined.

#[global] Instance CacheKey_eq_dec : EqDecision CacheKey.
Proof. solve_decision. Defined.

#[global] Instance CacheKey_countable : Countable CacheKey.
Proof.
  refine (inj_countable'
    (fun k => match k with
              | KStr s => inl s
              | KNum n => inr (inl n)
              | KBool b => inr (inr (Some (Some b)))
              | KNull => inr (inr (Some None))
              | KUndefined => inr (inr None)
              end)
    (fun x => match x with
              | inl s => KStr s
              | inr (inl n) => KNum n
              | inr (inr (Some (Some b))) => KBool b
              | inr (inr (Some None)) => KNull
              | inr (inr None) => KUndefined
              end) _).
  now intros [].
Defined.

Record HostCacheEntry := mkEntry {
  host : string;
  expiresAt : Z;
}.

Record World := mkWorld {
  clock : Z;       (* what [Date.now()] reads when the run begins *)
  hostCache : gmap CacheKey HostCacheEntry;
  trace : list Event;
}.

Definition HOST_CACHE_TTL_MS : Z := 5 * 60 * 1000.

(** ** The effect monad: state, exceptions, and a third outcome for the
    inputs the model leaves out *)

Inductive Outcome (A : Type) :=
| Ok (a : A)
| Throw (e : JsError)
| Unmodelled.

Arguments Ok {A} a.
Arguments Throw {A} e.
Arguments Unmodelled {A}.

Definition M (A : Type) : Type := World -> Outcome A * World.

Definition ret {A} (a : A) : M A := fun w => (Ok a, w).

Definition throw {A} (e : JsError) : M A := fun w => (Throw e, w).

Definition unmodelled {A} : M A := fun w => (Unmodelled, w).

Definition bind {A B} (m : M A) (k : A -> M B) : M B :=
  fun w =>
    match m w with
    | (Ok a, w') => k a w'
    | (Throw e, w') => (Throw e, w')
    | (Unmodelled, w') => (Unmodelled, w')
    end.

Notation "'do' x <- m 'in' k" := (bind m (fun x => k))
  (at level 10, x name, m at level 100, k at level 200).

(** [try { m } catch (err) { h err }] *)
Definition try_catch {A} (m : M A) (h : JsError -> M A) : M A :=
  fun w =>
    match m w with
    | (Throw e, w') => h e w'
    | r => r
    end.

Definition emit (e : Event) : M unit :=
  fun w => (Ok tt, mkWorld (clock w) (hostCache w) (e :: trace w)).

Definition Date_now : M Z := fun w => (Ok (clock w), w).

Definition of_option {A} (o : option A) : M A :=
  match o with
  | Some a => ret a
  | None => unmodelled
  end.

Definition cache_key (v : json) : option CacheKey :=
  match v with
  | JStr s => Some (KStr s)
  | JNum n => Some (KNum n)
  | JBool b => Some (KBool b)
  | JNull => Some KNull
  | JUndefined => Some KUndefined
  | JArr _ | JObj _ | JFun => None
  end.

(** [hostCache.get(name)] *)
Definition cache_get (name : json) : M (option HostCacheEntry) :=
  fun w =>
    (Ok (match cache_key name with
         | Some k => hostCache w !! k
         | None => None
         end), w).

(** [hostCache.set(name, entry)] *)
Definition cache_set (name : json) (entry : HostCacheEntry) : M unit :=
  fun w =>
    (Ok tt,
     match cache_key name with
     | Some k => mkWorld (clock w) (<[k := entry]> (hostCache w)) (trace w)
     | None => w
     end).

(** ** The program *)

(** The handler's answer: [res.status(s).json(body)], or
    [res.status(s).end()] when there is no body, with the headers set
    before it. *)
Record HttpRes := mkRes {
  res_status : Z;
  res_headers : list (string * string);
  res_body : option json;
}.

(** [req.body]: a string still to be parsed (with what [JSON.parse]
    answers on it), or the value the hosting platform already parsed. *)
Inductive ReqBody :=
| RawBody (text : string) (parsed : option json)
| ParsedBody (v : json).

Record HttpReq := mkReq {
  method : string;
  origin : option string;          (* [req.headers.origin] *)
  authorization : option string;   (* [req.headers.authorization] *)
  body : ReqBody;
}.

Inductive Action :=
| Chat
| Search
| DescribeAssistant
| ListAssistants
| ListFiles
| DeleteFile
| Store.

Definition action_name (a : Action) : string :=
  match a with
  | Chat => "chat"
  | Search => "search"
  | DescribeAssistant => "describeAssistant"
  | ListAssistants => "listAssistants"
  | ListFiles => "listFiles"
  | DeleteFile => "deleteFile"
  | Store => "store"
  end.

(** Which [case] of the [switch] a value selects (strict equality with
    the label), if any. *)
Definition action_of (v : json) : option Action :=
  match v with
  | JStr s =>
      List.find (fun a => Str.eqb s (action_name a))
        [Chat; Search; DescribeAssistant; ListAssistants; ListFiles; DeleteFile; Store]
  | _ => None
  end.

(** The informational limits sent with the [store] stub. *)
Definition LIMITS : json :=
  JObj [("upload_rpm",
         JObj [("starter", JNum 5); ("standard", JNum 20); ("enterprise", JNum 300)]);
        ("file_size_mb",
         JObj [("pdf",
                JObj [("starter", JNum 10); ("standard", JNum 100);
                      ("enterprise", JNum 100)]);
               ("text_like", JNum 10)])].

Definition supported_actions : list string :=
  ["chat"; "search"; "describeAssistant"; "listAssistants"; "listFiles";
   "deleteFile"; "store"].

Section Program.

Variable env : Env.

(** [x || d] on a string that may be absent: [process.env.X || d],
    [headers.get(k) || d]. *)
Definition string_or (x : option string) (d : string) : string :=
  match x with
  | Some s => if Str.eqb s "" then d else s
  | None => d
  end.

(** A header value as [fetch] sends it: [undefined] goes out as text. *)
Definition header_value (x : option string) : string :=
  match x with
  | Some s => s
  | None => "undefined"
  end.

Definition API_VERSION : string := string_or (PINECONE_API_VERSION env) "2025-04".

Definition get_headers : list (string * string) :=
  [("Api-Key", header_value (PINECONE_API_KEY env));
   ("X-Pinecone-API-Version", API_VERSION)].

Definition post_headers : list (string * string) :=
  [("Api-Key", header_value (PINECONE_API_KEY env));
   ("Content-Type", "application/json");
   ("X-Pinecone-API-Version", API_VERSION)].

(** *** Fetch wrapper (source lines 328-366) *)

(** [await fetch(url, opts)] *)
Definition fetch (retries : nat) (req : Request) : M Response :=
  fun w =>
    let w' := mkWorld (clock w) (hostCache w) (EvFetch retries req :: trace w) in
    match upstream env (length (trace w)) req with
    | Reply resp => (Ok resp, w')
    | NetworkError msg => (Throw (NativeError "TypeError" msg), w')
    end.

(** [resp.ok] *)
Definition resp_ok (resp : Response) : bool :=
  (200 <=? status resp) && (status resp <=? 299).

(** [await resp.json()] *)
Definition resp_json (resp : Response) : M json :=
  do _ <- emit (EvReadJson resp) in
  match body_json resp with
  | Some v => ret v
  | None => throw (NativeError "SyntaxError" "Unexpected end of JSON input")
  end.

(** [Math.floor(Math.random() * n)]: [Math.random()] is [m / 2^53], the
    product is rounded to a double, and the floor is taken. *)
Definition random_below (n : Z) : M Z :=
  fun w =>
    (Ok (JS.round_double ((random_bits env (length (trace w)) mod 2 ^ 53) * n)
         / 2 ^ 53), w).

(** The delay of lines 332-335.  [ra * 1000] is a product of doubles: it
    is the double nearest to the exact product, and [Infinity] (here: a
    value of [2^1024] or more) when that overflows. *)
Definition retry_delay (resp : Response) (retries : nat) : M Z :=
  let fallback :=
    do jitter <- random_below 200 in
    ret ((3 - Z.of_nat retries) * 500 + jitter) in
  match JS.parseInt (string_or (retry_after resp) "0") with
  | Fin ra => if 0 <? ra then ret (JS.round_double (ra * 1000)) else fallback
  | _ => fallback
  end.

(** [await new Promise((r) => setTimeout(r, delay))]: the event records
    the delay asked for, not the time the timer takes. *)
Definition sleep (delay : Z) : M unit := emit (EvSleep delay).

(** [enrich(resp)], always called with the default prefix. *)
Definition enrich (resp : Response) : M JsError :=
  do _ <- emit (EvReadJson resp) in
  do details <-
    match body_json resp with
    | Some v => ret v
    | None =>
        do _ <- emit (EvReadText resp) in
        ret (match body_text resp with
             | Some t => JStr t
             | None => JNull
             end)
    end in
  ret (HttpError (status resp)
         ("Request failed: " +:+ Str.of_Z (status resp) +:+ " " +:+ statusText resp)
         (JObj [("url", JStr (url resp)); ("body", details)])).

(** What follows the retry branch: lines 340-341. *)
Definition settle (resp : Response) : M Response :=
  if resp_ok resp then ret resp
  else do e <- enrich resp in throw e.

(** [doFetch(url, opts, retries)]; the recursion is on [retries], and the
    test [resp.status === 429 && retries > 0] is the [S _] branch. *)
Fixpoint doFetch (req : Request) (retries : nat) : M Response :=
  do resp <- fetch retries req in
  match retries with
  | S retries' =>
      if status resp =? 429 then
        do delay <- retry_delay resp retries in
        do _ <- sleep delay in
        doFetch req retries'
      else settle resp
  | O => settle resp
  end.

(** [normalizeError(err)], then the destructuring of line 220 with its
    defaults: the status and the fields of the error envelope. *)
Definition normalizeError (err : JsError) : json :=
  match err with
  | HttpError st msg details =>
      JObj [("status", JNum st); ("message", JStr msg); ("details", details)]
  | NativeError name msg =>
      JObj [("message", JStr (if Str.eqb msg "" then name else msg))]
  end.

(** *** Host resolver (source lines 236-258) *)

Definition assistants_url : string := "https://api.pinecone.io/assistant/assistants".

(** [encodeURIComponent(v)] on a value. *)
Definition encode (v : json) : M string :=
  do s <- of_option (JS.to_string v) in ret (JS.encodeURIComponent s).

(** [v.k], which throws on [null] and [undefined]. *)
Definition get_prop (v : json) (k : string) : M json :=
  if JS.nullish v then
    throw (NativeError "TypeError"
             ("Cannot read properties of "
              +:+ (match v with JNull => "null" | _ => "undefined" end)
              +:+ " (reading '" +:+ k +:+ "')"))
  else ret (JS.get v k).

(** [normalizeAssistantBase(host)] on a value: [host.startsWith] exists on
    strings only. *)
Definition normalize_host (host : json) : M string :=
  match host with
  | JStr h => of_option (normalizeAssistantBase h)
  | _ => throw (NativeError "TypeError" "host.startsWith is not a function")
  end.

(** The cache-miss path, lines 241-257. *)
Definition discover (assistantName : json) (now : Z) : M string :=
  do name <- encode assistantName in
  do resp <- doFetch (mkRequest "GET" (assistants_url +:+ "/" +:+ name)
                        get_headers None) 2 in
  do data <- resp_json resp in
  do h <- get_prop data "host" in
  if negb (JS.truthy h) then
    throw (NativeError "Error" "Assistant response missing 'host'")
  else
    match h with
    | JStr h =>
        let hostUrl := if Str.startsWith h "http" then h else "https://" +:+ h in
        do base <- of_option (normalizeAssistantBase hostUrl) in
        do _ <- cache_set assistantName (mkEntry base (now + HOST_CACHE_TTL_MS)) in
        ret base
    | _ => throw (NativeError "TypeError" "data.host.startsWith is not a function")
    end.

Definition getAssistantBase (assistantName : json) : M string :=
  do now <- Date_now in
  do cached <- cache_get assistantName in
  match cached with
  | Some c => if now <? expiresAt c then ret (host c) else discover assistantName now
  | None => discover assistantName now
  end.

(** [assistant_host ? normalizeAssistantBase(assistant_host)
                    : await getAssistantBase(name)] *)
Definition resolve_base (assistant_host name : json) : M string :=
  if JS.truthy assistant_host then normalize_host assistant_host
  else getAssistantBase name.

(** *** Control plane and files (source lines 270-324) *)

Definition describeAssistant (assistantName : json) : M json :=
  do name <- encode assistantName in
  do resp <- doFetch (mkRequest "GET" (assistants_url +:+ "/" +:+ name)
                        get_headers None) 2 in
  resp_json resp.

Definition listAssistants : M json :=
  do resp <- doFetch (mkRequest "GET" assistants_url get_headers None) 2 in
  resp_json resp.

(** A truthy [filter] goes into the query string through [JSON.stringify]
    and form encoding, which the model leaves out. *)
Definition listFiles (base : string) (assistantName filter : json) : M json :=
  do name <- encode assistantName in
  do u <- of_option (URL.parse (base +:+ "/files/" +:+ name)) in
  if JS.truthy filter then unmodelled
  else
    do resp <- doFetch (mkRequest "GET" (URL.href u) get_headers None) 2 in
    resp_json resp.

Definition deleteFile (base : string) (assistantName fileId : json) : M json :=
  do name <- encode assistantName in
  do file <- encode fileId in
  do resp <- doFetch (mkRequest "DELETE"
                        (base +:+ "/files/" +:+ name +:+ "/" +:+ file)
                        get_headers None) 2 in
  if (status resp =? 200) || (status resp =? 204) then
    ret (JObj [("deleted", JBool true); ("file_id", fileId)])
  else resp_json resp.

(** *** The handler (source lines 31-223) *)

(** The four headers set before anything else. *)
Definition cors_headers (req : HttpReq) : list (string * string) :=
  let allowed := Str.split "," (string_or (ALLOWED_ORIGINS env) "https://chatgpt.com") in
  let first := string_or (head allowed) "*" in
  [("Vary", "Origin");
   ("Access-Control-Allow-Origin",
    match origin req with
    | Some o => if existsb (Str.eqb o) allowed then o else first
    | None => first
    end);
   ("Access-Control-Allow-Methods", "POST, OPTIONS");
   ("Access-Control-Allow-Headers", "Content-Type, Authorization")].

(** [AUTH_TOKEN && req.headers.authorization !== `Bearer ${AUTH_TOKEN}`] *)
Definition unauthorized (req : HttpReq) : bool :=
  match MONEYPENNY_AUTH_TOKEN env with
  | Some token =>
      negb (Str.eqb token "")
      && negb (match authorization req with
               | Some a => Str.eqb a ("Bearer " +:+ token)
               | None => false
               end)
  | None => false
  end.

Definition failure (error : string) : json :=
  JObj [("success", JBool false); ("error", JStr error)].

Definition success (type : string) (data : json) : json :=
  JObj [("success", JBool true); ("type", JStr type); ("data", data)].

(** [...(v ? { k: w } : {})] and [if (v) payload.k = w] *)
Definition field_if (b : bool) (k : string) (w : json) : list (string * json) :=
  if b then [(k, w)] else [].

Definition is_ascii (c : ascii) : bool := (nat_of_ascii c <? 128)%nat.

Fixpoint chars (s : string) : list json :=
  match s with
  | EmptyString => []
  | String c r => JStr (String c EmptyString) :: chars r
  end.

(** [...context]: arrays spread to their items, strings to their
    characters (followed on ASCII strings), nothing else is iterable. *)
Definition spread (v : json) : M (list json) :=
  match v with
  | JArr items => ret items
  | JStr s => if Str.forallb is_ascii s then ret (chars s) else unmodelled
  | _ => throw (NativeError "TypeError" "context is not iterable")
  end.

(** The payload of lines 68-94. *)
Definition chat_payload (data : json) : M json :=
  let d := JS.or data (JObj []) in
  let message := JS.get d "message" in
  let context := JS.default (JS.get d "context") (JArr []) in
  let model := JS.default (JS.get d "model") (JStr "gpt-4o") in
  let temperature := JS.default (JS.get d "temperature") (JNum 0) in
  let filter := JS.get d "filter" in
  let json_response := JS.get d "json_response" in
  let stream := JS.default (JS.get d "stream") (JBool false) in
  let include_highlights := JS.default (JS.get d "include_highlights") (JBool false) in
  let context_options := JS.get d "context_options" in
  let top_k := JS.get d "top_k" in
  do prior <- spread context in
  ret (JObj
    ([("messages",
       JArr (List.filter JS.truthy
               (prior ++ [if JS.truthy message
                          then JObj [("role", JStr "user"); ("content", message)]
                          else JNull])));
      ("model", model);
      ("temperature", temperature);
      ("stream", stream);
      ("include_highlights", include_highlights)]
     ++ field_if (JS.truthy filter) "filter" filter
     ++ field_if (JS.truthy json_response) "json_response" (JBool true)
     ++ field_if (JS.truthy context_options) "context_options" context_options
     ++ field_if (JS.isFinite top_k) "top_k" top_k)).

(** The response mapping of lines 106-117. *)
Definition chat_result (out : json) : M json :=
  do message <- get_prop out "message" in
  ret (JObj [("response", JS.coalesce (JS.get_opt message "content") (JStr ""));
             ("citations", JS.coalesce (JS.get out "citations") (JArr []));
             ("context_snippets", JS.coalesce (JS.get out "context_snippets") (JArr []));
             ("usage", JS.coalesce (JS.get out "usage") (JObj []));
             ("model", JS.get out "model")]).

(** The payload of lines 125-137; [None] is the [null] of line 133. *)
Definition search_payload (data : json) : option json :=
  let d := JS.or data (JObj []) in
  let query := JS.get d "query" in
  let messages := JS.get d "messages" in
  let top_k := JS.get d "top_k" in
  let filter := JS.get d "filter" in
  let context_options := JS.get d "context_options" in
  let extra :=
    field_if (JS.truthy filter) "filter" filter
    ++ field_if (JS.isFinite top_k) "top_k" top_k
    ++ field_if (JS.truthy context_options) "context_options" context_options in
  if JS.truthy (JS.get_opt messages "length") then
    Some (JObj (("messages", messages) :: extra))
  else if JS.truthy query then Some (JObj (("query", query) :: extra))
  else None.

(** The response mapping of lines 149-158. *)
Definition search_result (out : json) : M json :=
  do snippets <- get_prop out "snippets" in
  ret (JObj [("snippets", JS.coalesce snippets (JArr []));
             ("usage", JS.coalesce (JS.get out "usage") (JObj []));
             ("id", JS.get out "id")]).

Definition answer (req : HttpReq) (st : Z) (body : json) : HttpRes :=
  mkRes st (cors_headers req) (Some body).

Definition name_required (req : HttpReq) : M HttpRes :=
  ret (answer req 400 (failure "assistant_name is required")).

(** The [switch] of lines 59-217, on the destructured body. *)
Definition route (req : HttpReq) (body : json) : M HttpRes :=
  let b := JS.or body (JObj []) in
  let action := JS.get b "action" in
  let assistant_host := JS.get b "assistant_host" in
  let data := JS.default (JS.get b "data") (JObj []) in
  let name := JS.or (JS.get b "assistant_name") (JS.get b "assistant_id") in
  match action_of action with
  | Some Chat =>
      if negb (JS.truthy name) then name_required req
      else
        do base <- resolve_base assistant_host name in
        do payload <- chat_payload data in
        do n <- encode name in
        do resp <- doFetch (mkRequest "POST" (base +:+ "/chat/" +:+ n)
                              post_headers (Some payload)) 2 in
        do out <- resp_json resp in
        do result <- chat_result out in
        ret (answer req 200 (success "chat" result))
  | Some Search =>
      if negb (JS.truthy name) then name_required req
      else
        do base <- resolve_base assistant_host name in
        match search_payload data with
        | None =>
            ret (answer req 400 (failure "search: provide 'query' or 'messages'"))
        | Some payload =>
            do n <- encode name in
            do resp <- doFetch (mkRequest "POST"
                                  (base +:+ "/chat/" +:+ n +:+ "/context")
                                  post_headers (Some payload)) 2 in
            do out <- resp_json resp in
            do result <- search_result out in
            ret (answer req 200 (success "search" result))
        end
  | Some DescribeAssistant =>
      if negb (JS.truthy name) then name_required req
      else
        do result <- describeAssistant name in
        ret (answer req 200 (success "describeAssistant" result))
  | Some ListAssistants =>
      do result <- listAssistants in
      ret (answer req 200 (success "listAssistants" result))
  | Some ListFiles =>
      if negb (JS.truthy name) then name_required req
      else
        do base <- resolve_base assistant_host name in
        do result <- listFiles base name (JS.get_opt data "filter") in
        ret (answer req 200 (success "listFiles" result))
  | Some DeleteFile =>
      if negb (JS.truthy name) then name_required req
      else if negb (JS.truthy (JS.get_opt data "file_id")) then
        ret (answer req 400 (failure "file_id is required"))
      else
        do base <- resolve_base assistant_host name in
        do result <- deleteFile base name (JS.get data "file_id") in
        ret (answer req 200 (success "deleteFile" result))
  | Some Store =>
      ret (answer req 501
             (JObj [("success", JBool false);
                    ("error", JStr "File upload deferred (VS2). Use Pinecone console for now.");
                    ("details", JStr "REST multipart upload will be implemented in VS3.");
                    ("limits", LIMITS)]))
  | None =>
      ret (answer req 400
             (JObj [("success", JBool false);
                    ("error", JStr "Invalid action");
                    ("supported_actions", JArr (map JStr supported_actions))]))
  end.

(** The [catch] of lines 218-222. *)
Definition on_error (req : HttpReq) (err : JsError) : M HttpRes :=
  do _ <- emit (EvConsoleError err) in
  let n := normalizeError err in
  let st := match JS.get n "status" with JNum st => st | _ => 500 end in
  let message := JS.default (JS.get n "message") (JStr "Unknown error") in
  ret (answer req st
         (JObj [("success", JBool false); ("error", message);
                ("details", JS.get n "details")])).

Definition handler (req : HttpReq) : M HttpRes :=
  if Str.eqb (method req) "OPTIONS" then ret (mkRes 200 (cors_headers req) None)
  else if negb (Str.eqb (method req) "POST") then
    ret (answer req 405 (failure "Method not allowed"))
  else if unauthorized req then ret (answer req 401 (failure "Unauthorized"))
  else
    match body req with
    | RawBody _ None => ret (answer req 400 (failure "Invalid JSON body"))
    | RawBody _ (Some v) => try_catch (route req v) (on_error req)
    | ParsedBody (JStr _) => unmodelled
    | ParsedBody v => try_catch (route req v) (on_error req)
    end.

End Program.

(** ** Reading a trace *)

Definition is_fetch (e : Event) : bool :=
  match e with
  | EvFetch _ _ => true
  | _ => false
  end.

(** The first attempt of a [doFetch] call: a fetch with both retries
    left. *)
Definition is_call (e : Event) : bool :=
  match e with
  | EvFetch 2 _ => true
  | _ => false
  end.

Definition is_body_read (e : Event) : bool :=
  match e with
  | EvReadJson _ | EvReadText _ => true
  | _ => false
  end.

(** HTTP requests sent. *)
Definition attempts (t : list Event) : nat := length (List.filter is_fetch t).

(** Outbound calls made through [doFetch]. *)
Definition calls (t : list Event) : nat := length (List.filter is_call t).

Definition body_reads (t : list Event) : nat := length (List.filter is_body_read t).

Definition set_clock (now : Z) (w : World) : World :=
  mkWorld now (hostCache w) (trace w).

(** The world after further events [evs] (most recent first). *)
Definition push (evs : list Event) (w : World) : World :=
  mkWorld (clock w) (hostCache w) (evs ++ trace w).

(** What [enrich] reads from a response, and the events of doing so. *)
Definition enrich_details (resp : Response) : json :=
  match body_json resp with
  | Some v => v
  | None =>
      match body_text resp with
      | Some t => JStr t
      | None => JNull
      end
  end.

Definition enrich_events (resp : Response) : list Event :=
  match body_json resp with
  | Some _ => [EvReadJson resp]
  | None => [EvReadText resp; EvReadJson resp]
  end.

Definition upstream_error (resp : Response) : JsError :=
  HttpError (status resp)
    ("Request failed: " +:+ Str.of_Z (status resp) +:+ " " +:+ statusText resp)
    (JObj [("url", JStr (url resp)); ("body", enrich_details resp)]).

(** The body the handler works on, when the request gets that far. *)
Definition parsed_body (req : HttpReq) : option json :=
  match body req with
  | RawBody _ parsed => parsed
  | ParsedBody (JStr _) => None
  | ParsedBody v => Some v
  end.

(** An event that is no fetch, or a fetch issued with fewer than
    [retries] retries left. *)
Definition later_attempt (retries : nat) (e : Event) : Prop :=
  match e with
  | EvFetch k _ => (k < retries)%nat
  | _ => True
  end.

Definition is_sleep (e : Event) : bool :=
  match e with
  | EvSleep _ => true
  | _ => false
  end.

(** Backoff delays waited. *)
Definition sleeps (t : list Event) : nat := length (List.filter is_sleep t).

(** ** Sample platforms, for the closed instances below *)

Module Example.

(** An upstream that rate-limits every request. *)
Definition busy (k : nat) (req : Request) : FetchResult :=
  Reply (mkResponse 429 "Too Many Requests" (rq_url req) None None None).

(** An upstream that knows the assistant [demo]: discovery answers its
    host, chat answers [hi], and DELETE answers [delete_status] with
    [delete_body]. *)
Definition serving (delete_status : Z) (delete_body : option json)
    (k : nat) (req : Request) : FetchResult :=
  if Str.eqb (rq_method req) "GET" then
    Reply (mkResponse 200 "OK" (rq_url req) None
             (Some (JObj [("host", JStr "demo-abc.svc.pinecone.io")])) None)
  else if Str.eqb (rq_method req) "DELETE" then
    Reply (mkResponse delete_status "" (rq_url req) None delete_body None)
  else
    Reply (mkResponse 200 "OK" (rq_url req) None
             (Some (JObj [("message", JObj [("content", JStr "hi")])])) None).

Definition platform (up : nat -> Request -> FetchResult) : Env :=
  mkEnv (Some "pc-key") None None None up (fun k => Z.of_nat k).

Definition idle : World := mkWorld 1000 ∅ [].

Definition base : string := "https://demo-abc.svc.pinecone.io/assistant".

Definition post (body : json) : HttpReq :=
  mkReq "POST" None None (ParsedBody body).

End Example.

(** The payload of the chat scenario: one user turn, the defaults. *)
Definition scenario_payload : json :=
  JObj [("messages", JArr [JObj [("role", JStr "user"); ("content", JStr "hello")]]);
        ("model", JStr "gpt-4o");
        ("temperature", JNum 0);
        ("stream", JBool false);
        ("include_highlights", JBool false)].

(** ** Reading a run: delays, judgements, the requested name *)

(** A backoff delay of a call that still has [retries] retries. *)
Definition backoff_floor (retries : nat) (e : Event) : Prop :=
  match e with
  | EvSleep ms => Z.min 1000 ((3 - Z.of_nat retries) * 500) <= ms
  | _ => True
  end.

(** ** Judgements on computations *)

(** [m] leaves the world as it found it. *)
Definition pure {A} (m : M A) : Prop :=
  forall w r w', m w = (r, w') -> w' = w.

(** [m] takes every world to one related to it by [R]. *)
Definition keeps {A} (R : World -> World -> Prop) (m : M A) : Prop :=
  forall w r w', m w = (r, w') -> R w w'.

(** Every value [m] returns satisfies [Q]. *)
Definition yields {A} (Q : A -> Prop) (m : M A) : Prop :=
  forall w a w', m w = (Ok a, w') -> Q a.

(** [m] makes at most [n] calls through [doFetch], hence at most [3 * n]
    HTTP attempts. *)
Definition spends {A} (n : nat) (m : M A) : Prop :=
  forall w r w',
    m w = (r, w') ->
    (calls (trace w') <= calls (trace w) + n)%nat /\
    (attempts (trace w') <= attempts (trace w) + 3 * n)%nat.

(** What a request for the assistant [key] may change: events are only
    added, and every cache entry but that of [key] stays. *)
Definition frame (key : option CacheKey) (w w' : World) : Prop :=
  (exists evs, trace w' = evs ++ trace w) /\
  forall k, Some k <> key -> hostCache w' !! k = hostCache w !! k.

(** Every request [m] sends satisfies [P]. *)
Definition fetches (P : Request -> Prop) (e : Event) : Prop :=
  match e with
  | EvFetch _ req => P req
  | _ => True
  end.

Definition sends {A} (P : Request -> Prop) (m : M A) : Prop :=
  forall w r w',
    m w = (r, w') -> exists evs, trace w' = evs ++ trace w /\ Forall (fetches P) evs.

(** The two requests of the control plane: the list of assistants, and
    the description of the assistant [name]. *)
Definition control_plane_request (hs : list (string * string)) (name : json)
    (req : Request) : Prop :=
  req = mkRequest "GET" assistants_url hs None
  \/ exists s,
       JS.to_string name = Some s /\
       req = mkRequest "GET" (assistants_url +:+ "/" +:+ JS.encodeURIComponent s)
               hs None.

(** The path [normalizeAssistantBase] sets: the trailing slashes go, and
    [/assistant] is appended unless the path ends in it. *)
Definition assistant_path (p : string) : string :=
  let q := Str.strip_trailing_slashes p in
  if Str.endsWith q "/assistant" then q else q +:+ "/assistant".

(** A host of the modelled fragment without query and fragment, as a
    caller writes it: [h] is [sch://host] followed by the path [p] (none,
    or one that starts with a slash), or the same without the scheme, in
    which case the normaliser supplies [https]; written without a scheme
    the host must not begin with [http], or the code would take it for a
    URL. *)
Definition plain_url (h sch host p : string) : Prop :=
  URL.scheme_ok sch = true /\ URL.host_ok host = true /\
  (p = "" \/ URL.path_ok p = true) /\
  (h = sch +:+ "://" +:+ host +:+ p \/
   (sch = "https" /\ Str.startsWith host "http" = false /\ h = host +:+ p)).

(** The name a request resolves: [assistant_name || assistant_id] of
    [body || {}]. *)
Definition requested_name (body : json) : json :=
  JS.or (JS.get (JS.or body (JObj [])) "assistant_name")
        (JS.get (JS.or body (JObj [])) "assistant_id").


(** ** Further sample upstreams *)

Module Sample.

(** An upstream that rate-limits the first request and serves the next
    ones. *)
Definition flaky (k : nat) (req : Request) : FetchResult :=
  match k with
  | O => Reply (mkResponse 429 "Too Many Requests" (rq_url req) (Some "1") None None)
  | _ => Reply (mkResponse 200 "OK" (rq_url req) None (Some (JObj [])) None)
  end.

(** An upstream that answers every request with the status [st] and a
    body that is not JSON; the body is consumed by the failed [json()],
    so [text()] rejects after it. *)
Definition failing (st : Z) (k : nat) (req : Request) : FetchResult :=
  Reply (mkResponse st "Not Found" (rq_url req) None None None).

(** No network. *)
Definition offline (k : nat) (req : Request) : FetchResult :=
  NetworkError "fetch failed".


Definition list_request : Request :=
  mkRequest "GET" assistants_url
    [("Api-Key", "pc-key"); ("X-Pinecone-API-Version", "2025-04")] None.

End Sample.

(** *** Facts about the string operations *)

Section StringFacts.

Lemma append_empty_r (s : string) : s +:+ "" = s.
Proof. induction s as [|c s IH]; simpl; congruence. Qed.

Lemma append_assoc (a b c : string) : (a +:+ b) +:+ c = a +:+ b +:+ c.
Proof. induction a as [|x a IH]; simpl; congruence. Qed.

Lemma forallb_append p a b :
  Str.forallb p (a +:+ b) = Str.forallb p a && Str.forallb p b.
Proof.
  induction a as [|x a IH]; simpl; [reflexivity |].
  rewrite IH. now rewrite andb_assoc.
Qed.

Lemma break_append stop a b :
  Str.forallb (fun c => negb (stop c)) a = true ->
  Str.stops_at stop b = true ->
  Str.break stop (a +:+ b) = (a, b).
Proof.
  intros Ha Hb. induction a as [|x a IH]; simpl in *.
  - destruct b as [|c b]; simpl in *; [reflexivity | now rewrite Hb].
  - apply andb_true_iff in Ha as [Hx Ha].
    apply negb_true_iff in Hx. rewrite Hx, (IH Ha). reflexivity.
Qed.

Lemma forallb_impl (p q : ascii -> bool) s :
  (forall c, p c = true -> q c = true) ->
  Str.forallb p s = true -> Str.forallb q s = true.
Proof.
  intros Hpq. induction s as [|c s IH]; simpl; [reflexivity |].
  intros [Hc Hs]%andb_true_iff. now rewrite (Hpq _ Hc), (IH Hs).
Qed.

Lemma endsWith_empty suf : suf <> "" -> Str.endsWith "" suf = false.
Proof. destruct suf; [congruence | reflexivity]. Qed.

Lemma endsWith_cons c s suf :
  Str.endsWith (String c s) suf
  = String.eqb (String c s) suf || Str.endsWith s suf.
Proof. reflexivity. Qed.

Lemma endsWith_append p suf : Str.endsWith (p +:+ suf) suf = true.
Proof.
  induction p as [|c p IH]; simpl.
  - destruct suf; simpl; [reflexivity |].
    now rewrite Ascii.eqb_refl, String.eqb_refl.
  - rewrite IH. apply orb_true_r.
Qed.

Lemma last_char_endsWith s suf :
  Str.endsWith s suf = true -> suf <> "" -> Str.last_char s = Str.last_char suf.
Proof.
  intros H Hsuf. induction s as [|c s IH].
  - now rewrite endsWith_empty in H.
  - rewrite endsWith_cons in H. apply orb_true_iff in H as [H|H].
    + apply String.eqb_eq in H. now rewrite <- H.
    + specialize (IH H). destruct s as [|d s].
      * now rewrite endsWith_empty in H.
      * exact IH.
Qed.

Lemma strip_one_fixed s :
  Str.last_char s <> Some "/"%char -> Str.strip_one_trailing_slash s = s.
Proof.
  induction s as [|c s IH]; [reflexivity |].
  destruct s as [|d s].
  - simpl. unfold Str.is_slash. destruct (Ascii.eqb_spec c "/"); congruence.
  - intros H. change (String c (Str.strip_one_trailing_slash (String d s)) = String c (String d s)).
    now rewrite IH.
Qed.


Lemma last_char_append a b : b <> "" -> Str.last_char (a +:+ b) = Str.last_char b.
Proof.
  intros Hb. induction a as [|c a IH]; [reflexivity |].
  simpl. rewrite IH. destruct (a +:+ b) eqn:E; [|reflexivity].
  destruct a; simpl in E; congruence.
Qed.

Lemma forallb_strip_all p s :
  Str.forallb p s = true -> Str.forallb p (Str.strip_trailing_slashes s) = true.
Proof.
  induction s as [|c s IH]; simpl; [reflexivity |].
  intros [Hc Hs]%andb_true_iff. specialize (IH Hs).
  destruct (Str.strip_trailing_slashes s) as [|d r].
  - destruct (Str.is_slash c); simpl; [reflexivity | now rewrite Hc].
  - simpl in *. now rewrite Hc, IH.
Qed.

End StringFacts.

(** *** Facts about the URL model *)

Section URLFacts.

Ltac by_cases_on_char c :=
  destruct c as [[] [] [] [] [] [] [] []]; try reflexivity; discriminate.

Lemma host_char_not_end c :
  Chr.host_char c = true -> negb (Chr.host_end c) = true.
Proof. by_cases_on_char c. Qed.

Lemma path_char_not_end c :
  Chr.path_char c = true -> negb (Chr.path_end c) = true.
Proof. by_cases_on_char c. Qed.

Lemma scheme_ok_cases s : URL.scheme_ok s = true -> s = "https" \/ s = "http".
Proof.
  unfold URL.scheme_ok, Str.eqb. intros [H|H]%orb_true_iff;
    apply String.eqb_eq in H; auto.
Qed.

Lemma startsWith_slash p :
  Str.startsWith p "/" = true -> exists p', p = String "/" p'.
Proof.
  destruct p as [|c p]; [discriminate |].
  unfold Str.startsWith. cbn [Str.strip_prefix].
  destruct (Ascii.eqb_spec "/" c) as [<-|]; [eauto | done].
Qed.

Lemma parse_scheme_href sch rest :
  URL.scheme_ok sch = true ->
  URL.parse_scheme (sch +:+ "://" +:+ rest) = Some (sch, rest).
Proof. intros [->| ->]%scheme_ok_cases; reflexivity. Qed.

Lemma startsWith_http_href sch rest :
  URL.scheme_ok sch = true ->
  Str.startsWith (sch +:+ "://" +:+ rest) "http" = true.
Proof. intros [->| ->]%scheme_ok_cases; reflexivity. Qed.

End URLFacts.

(** *** Facts about host normalisation *)

Section NormalizeFacts.

Lemma last_char_assistant p :
  Str.endsWith p "/assistant" = true -> Str.last_char p = Some "t"%char.
Proof. intros H. now rewrite (last_char_endsWith _ _ H). Qed.

(** *** The normaliser on the modelled fragment *)

Lemma break_all stop s :
  Str.forallb (fun c => negb (stop c)) s = true -> Str.break stop s = (s, "").
Proof.
  intros H. rewrite <- (append_empty_r s) at 1. now apply break_append.
Qed.

Lemma strip_all_snoc s :
  Str.strip_trailing_slashes (s +:+ "/") = Str.strip_trailing_slashes s.
Proof.
  induction s as [|c s IH]; [reflexivity |].
  change (String c s +:+ "/") with (String c (s +:+ "/")).
  cbn [Str.strip_trailing_slashes]. now rewrite IH.
Qed.

(** Text that begins with a character foreign to [p] cannot complete
    the prefix [p]. *)
Lemma startsWith_append p h c r :
  Str.forallb (fun x => negb (Ascii.eqb x c)) p = true ->
  Str.startsWith (h +:+ String c r) p = Str.startsWith h p.
Proof.
  unfold Str.startsWith. revert h. induction p as [|a p IH]; intros h; [reflexivity |].
  cbn [Str.forallb]. intros [Ha Hp]%andb_true_iff. apply negb_true_iff in Ha.
  destruct h as [|b h].
  - cbn [String.append Str.strip_prefix]. now rewrite Ha.
  - cbn [String.append Str.strip_prefix]. destruct (Ascii.eqb a b); [|reflexivity].
    now apply IH.
Qed.

(** Stripping the trailing slashes keeps the first character, if
    anything is left. *)
Lemma strip_all_head c s :
  Str.strip_trailing_slashes (String c s) = ""
  \/ exists r, Str.strip_trailing_slashes (String c s) = String c r.
Proof.
  cbn [Str.strip_trailing_slashes].
  destruct (Str.strip_trailing_slashes s); [|right; eauto].
  destruct (Str.is_slash c); [now left | right; eauto].
Qed.

Lemma path_ok_cons c r :
  URL.path_ok (String c r) = Ascii.eqb "/" c && Str.forallb Chr.path_char (String c r).
Proof.
  unfold URL.path_ok, Str.startsWith. cbn [Str.strip_prefix].
  now destruct (Ascii.eqb "/" c).
Qed.

Lemma path_ok_assistant_path p :
  p = "" \/ URL.path_ok p = true -> URL.path_ok (assistant_path p) = true.
Proof.
  intros Hp. unfold assistant_path. cbv zeta.
  assert (Hq : Str.strip_trailing_slashes p = ""
               \/ URL.path_ok (Str.strip_trailing_slashes p) = true).
  { destruct Hp as [-> |Hp]; [now left |].
    destruct p as [|c s]; [now left |].
    rewrite path_ok_cons in Hp. apply andb_true_iff in Hp as [Hc Hall].
    destruct (strip_all_head c s) as [E|[r E]]; [now left | right].
    pose proof (forallb_strip_all _ _ Hall) as Hall'. rewrite E in *.
    rewrite path_ok_cons. now rewrite Hc, Hall'. }
  destruct Hq as [-> |Hq]; [reflexivity |].
  destruct (Str.endsWith (Str.strip_trailing_slashes p) "/assistant"); [exact Hq |].
  destruct (Str.strip_trailing_slashes p) as [|c r]; [reflexivity |].
  change (String c r +:+ "/assistant") with (String c (r +:+ "/assistant")).
  rewrite path_ok_cons in *. apply andb_true_iff in Hq as [Hc Hall].
  rewrite Hc. change (String c (r +:+ "/assistant")) with (String c r +:+ "/assistant").
  rewrite forallb_append, Hall. reflexivity.
Qed.

Lemma assistant_path_ends p : Str.endsWith (assistant_path p) "/assistant" = true.
Proof.
  unfold assistant_path. cbv zeta.
  destruct (Str.endsWith (Str.strip_trailing_slashes p) "/assistant") eqn:E;
    [exact E | apply endsWith_append].
Qed.


Lemma assistant_path_slash p : assistant_path (p +:+ "/") = assistant_path p.
Proof. unfold assistant_path. now rewrite strip_all_snoc. Qed.

Lemma host_ok_chars host :
  URL.host_ok host = true -> Str.forallb Chr.host_char host = true.
Proof.
  unfold URL.host_ok. intros H.
  apply andb_true_iff in H as [H _]. now apply andb_true_iff in H as [H _].
Qed.

(** On a written URL of the fragment the parser reads back the parts. *)
Lemma parse_fragment sch host p :
  URL.scheme_ok sch = true -> URL.host_ok host = true ->
  p = "" \/ URL.path_ok p = true ->
  URL.parse (sch +:+ "://" +:+ host +:+ p)
  = Some (URL.mk sch host (match p with "" => "/" | _ => p end) None None).
Proof.
  intros Hs Hh Hp. unfold URL.parse. rewrite (parse_scheme_href _ _ Hs).
  rewrite (break_append _ host p).
  - assert (Hplain : Str.forallb (fun c => negb (Chr.path_end c)) p = true).
    { destruct Hp as [-> |Hp]; [reflexivity |].
      apply andb_true_iff in Hp as [_ Hp].
      eapply forallb_impl; [apply path_char_not_end | exact Hp]. }
    rewrite (break_all _ _ Hplain). cbn [URL.parse_tail].
    assert (Hok : URL.ok (URL.mk sch host (match p with "" => "/" | _ => p end) None None)
                  = true).
    { unfold URL.ok. cbn [URL.scheme URL.host URL.path URL.query URL.fragment].
      rewrite Hs, Hh. destruct Hp as [-> |Hp]; [reflexivity |].
      destruct p; [reflexivity |]. now rewrite Hp. }
    now rewrite Hok.
  - eapply forallb_impl; [apply host_char_not_end | now apply host_ok_chars].
  - destruct Hp as [-> |Hp]; [reflexivity |].
    apply andb_true_iff in Hp as [Hp _].
    destruct (startsWith_slash _ Hp) as [p' ->]. reflexivity.
Qed.

Lemma normalize_fragment sch host p :
  URL.scheme_ok sch = true -> URL.host_ok host = true ->
  p = "" \/ URL.path_ok p = true ->
  normalizeAssistantBase (sch +:+ "://" +:+ host +:+ p)
  = Some (sch +:+ "://" +:+ host +:+ assistant_path p).
Proof.
  intros Hs Hh Hp. unfold normalizeAssistantBase.
  rewrite (startsWith_http_href _ _ Hs), (parse_fragment _ _ _ Hs Hh Hp).
  cbn [URL.path].
  replace (Str.strip_trailing_slashes (match p with "" => "/" | _ => p end))
    with (Str.strip_trailing_slashes p) by now destruct p.
  fold (assistant_path p). unfold URL.set_pathname.
  rewrite (path_ok_assistant_path _ Hp).
  cbn [URL.scheme URL.host URL.query URL.fragment].
  unfold URL.href, URL.tail.
  cbn [URL.scheme URL.host URL.path URL.query URL.fragment].
  change (URL.tail_of None None) with "". rewrite append_empty_r.
  f_equal. apply strip_one_fixed.
  pose proof (assistant_path_ends p) as Hend.
  rewrite <- !append_assoc.
  rewrite last_char_append.
  - now rewrite (last_char_assistant _ Hend).
  - intros E. rewrite E in Hend. discriminate Hend.
Qed.

(** The normaliser on the hosts of the fragment, written with or without
    their scheme. *)
Lemma normalize_plain_url h sch host p :
  plain_url h sch host p ->
  normalizeAssistantBase h = Some (sch +:+ "://" +:+ host +:+ assistant_path p).
Proof.
  intros (Hs & Hh & Hp & [-> |(-> & Hno & ->)]); [now apply normalize_fragment |].
  rewrite <- (normalize_fragment "https" host p Hs Hh Hp).
  unfold normalizeAssistantBase at 1.
  replace (Str.startsWith (host +:+ p) "http") with false; [reflexivity |].
  symmetry. destruct Hp as [-> |Hp]; [now rewrite append_empty_r |].
  apply andb_true_iff in Hp as [Hp _]. destruct (startsWith_slash _ Hp) as [p' ->].
  now rewrite (startsWith_append "http" host "/" p' eq_refl).
Qed.


Lemma plain_url_slash h sch host p :
  plain_url h sch host p -> plain_url (h +:+ "/") sch host (p +:+ "/").
Proof.
  intros (Hs & Hh & Hp & Hw). repeat split; try assumption.
  - right. destruct Hp as [-> |Hp]; [reflexivity |].
    destruct p as [|c r]; [reflexivity |].
    change (String c r +:+ "/") with (String c (r +:+ "/")).
    rewrite path_ok_cons in *. apply andb_true_iff in Hp as [Hc Hall]. rewrite Hc.
    change (String c (r +:+ "/")) with (String c r +:+ "/").
    now rewrite forallb_append, Hall.
  - destruct Hw as [-> |(-> & Hno & ->)]; [left | right].
    + now rewrite !append_assoc.
    + repeat split; [exact Hno | now rewrite append_assoc].
Qed.

End NormalizeFacts.

(** *** Facts about the dispatcher *)

Section DispatcherFacts.

Variable env : Env.

Lemma push_push a b w : push a (push b w) = push (a ++ b) w.
Proof. unfold push. simpl. now rewrite app_assoc. Qed.

Lemma calls_app a b : calls (a ++ b) = (calls a + calls b)%nat.
Proof. unfold calls. now rewrite List.filter_app, length_app. Qed.

Lemma attempts_app a b : attempts (a ++ b) = (attempts a + attempts b)%nat.
Proof. unfold attempts. now rewrite List.filter_app, length_app. Qed.

Lemma body_reads_app a b : body_reads (a ++ b) = (body_reads a + body_reads b)%nat.
Proof. unfold body_reads. now rewrite List.filter_app, length_app. Qed.

Lemma enrich_eq resp w :
  enrich resp w = (Ok (upstream_error resp), push (enrich_events resp) w).
Proof.
  unfold enrich, upstream_error, enrich_details, enrich_events, bind, emit, ret, push.
  simpl. now destruct (body_json resp).
Qed.

Lemma settle_eq resp w :
  settle resp w
  = if resp_ok resp then (Ok resp, w)
    else (Throw (upstream_error resp), push (enrich_events resp) w).
Proof.
  unfold settle. destruct (resp_ok resp); [reflexivity |].
  unfold bind. now rewrite enrich_eq.
Qed.

Lemma round_double_small v : v < 2 ^ 53 -> JS.round_double v = v.
Proof. intros H. unfold JS.round_double. now rewrite (proj2 (Z.ltb_lt _ _) H). Qed.

(** Above [2^53] the rounding moves a number by at most half a unit in
    the last place, and not below [2^53]. *)
Lemma round_double_large v :
  2 ^ 53 <= v ->
  exists e,
    1 <= e /\ e = Z.log2 v - 52 /\
    2 ^ 53 <= JS.round_double v /\
    v - 2 ^ (e - 1) <= JS.round_double v <= v + 2 ^ (e - 1).
Proof.
  intros Hv. unfold JS.round_double.
  rewrite (proj2 (Z.ltb_ge _ _) Hv).
  assert (Hlog : 53 <= Z.log2 v) by (apply Z.log2_le_pow2; lia).
  set (e := Z.log2 v - 52). exists e.
  assert (He : 1 <= e) by (unfold e; lia).
  assert (Hpow : 2 ^ e = 2 * 2 ^ (e - 1)).
  { replace e with (Z.succ (e - 1)) at 1 by lia. apply Z.pow_succ_r. lia. }
  assert (Hhalf : 0 < 2 ^ (e - 1)) by (apply Z.pow_pos_nonneg; lia).
  pose proof (Z.div_mod v (2 ^ e) ltac:(lia)) as Hdm.
  pose proof (Z.mod_pos_bound v (2 ^ e) ltac:(lia)) as Hr.
  assert (Hq : 2 ^ 52 <= v / 2 ^ e).
  { apply Z.div_le_lower_bound; [lia |].
    rewrite <- Z.pow_add_r by lia. replace (e + 52) with (Z.log2 v) by (unfold e; lia).
    apply Z.log2_spec. lia. }
  cbv zeta.
  set (q := v / 2 ^ e) in *. set (r := v mod 2 ^ e) in *.
  split; [exact He |]. split; [reflexivity |].
  assert (Hbase : 2 ^ 53 <= q * 2 ^ e).
  { change (2 ^ 53) with (2 ^ 52 * 2). nia. }
  destruct (Z.ltb_spec r (2 ^ (e - 1))); [split; nia |].
  destruct (Z.ltb_spec (2 ^ (e - 1)) r); [split; nia |].
  destruct (Z.even q); split; nia.
Qed.


Lemma round_double_lower v : 0 <= v -> Z.min v (2 ^ 53) <= JS.round_double v.
Proof.
  intros Hv. destruct (Z.lt_ge_cases v (2 ^ 53)) as [H|H].
  - rewrite (round_double_small _ H). lia.
  - destruct (round_double_large _ H) as (e & _ & _ & Hb & _). lia.
Qed.

(** The rounding of the product never lifts the jitter to 200. *)
Lemma random_below_range k :
  0 <= JS.round_double ((random_bits env k mod 2 ^ 53) * 200) / 2 ^ 53 < 200.
Proof.
  pose proof (Z.mod_pos_bound (random_bits env k) (2 ^ 53) ltac:(lia)) as Hm.
  set (m := random_bits env k mod 2 ^ 53) in *. split.
  - apply Z.div_pos; [|lia]. pose proof (round_double_lower (m * 200) ltac:(lia)). lia.
  - apply Z.div_lt_upper_bound; [lia |].
    destruct (Z.lt_ge_cases (m * 200) (2 ^ 53)) as [H|H].
    + rewrite (round_double_small _ H). lia.
    + destruct (round_double_large _ H) as (e & He & -> & _ & _ & Hup).
      assert (Hlog : Z.log2 (m * 200) < 61) by (apply Z.log2_lt_pow2; lia).
      assert (Hp : 2 ^ (Z.log2 (m * 200) - 52 - 1) <= 2 ^ 7)
        by (apply Z.pow_le_mono_r; lia).
      change (2 ^ 7) with 128 in Hp. lia.
Qed.

(** The delay is a value: computing it leaves the world alone. *)
Lemma retry_delay_pure resp retries w :
  exists delay, retry_delay env resp retries w = (Ok delay, w).
Proof.
  unfold retry_delay, random_below, bind, ret.
  destruct (JS.parseInt _) as [| |ra]; eauto.
  destruct (0 <? ra); eauto.
Qed.

(** One activation of [doFetch], spelled out. *)
Lemma doFetch_unfold req retries w :
  doFetch env req retries w
  = match upstream env (length (trace w)) req with
    | NetworkError msg =>
        (Throw (NativeError "TypeError" msg), push [EvFetch retries req] w)
    | Reply resp =>
        match retries with
        | S retries' =>
            if status resp =? 429 then
              (do delay <- retry_delay env resp retries in
               do _ <- sleep delay in
               doFetch env req retries') (push [EvFetch retries req] w)
            else settle resp (push [EvFetch retries req] w)
        | O => settle resp (push [EvFetch retries req] w)
        end
    end.
Proof.
  destruct retries; simpl; unfold bind at 1, fetch;
    destruct (upstream env (length (trace w)) req) as [msg|resp];
    try reflexivity.
  now destruct (status resp =? 429).
Qed.

(** The retry step: after a 429 with retries left, one sleep, then the
    call goes on with one retry less. *)
Lemma doFetch_retry req retries w resp :
  upstream env (length (trace w)) req = Reply resp ->
  status resp = 429 ->
  exists delay,
    retry_delay env resp (S retries) (push [EvFetch (S retries) req] w)
    = (Ok delay, push [EvFetch (S retries) req] w) /\
    doFetch env req (S retries) w
    = doFetch env req retries (push [EvSleep delay; EvFetch (S retries) req] w).
Proof.
  intros Hup Hst. rewrite doFetch_unfold, Hup, Hst. simpl.
  destruct (retry_delay_pure resp (S retries) (push [EvFetch (S retries) req] w))
    as [delay Hd].
  exists delay. split; [exact Hd |].
  unfold bind at 1. rewrite Hd. reflexivity.
Qed.

Lemma later_attempt_mono n e : later_attempt n e -> later_attempt (S n) e.
Proof. destruct e; simpl; lia. Qed.

Lemma enrich_events_later n resp : Forall (later_attempt n) (enrich_events resp).
Proof. unfold enrich_events. destruct (body_json resp); repeat constructor. Qed.

Lemma enrich_events_attempts resp : attempts (enrich_events resp) = 0%nat.
Proof. unfold enrich_events. now destruct (body_json resp). Qed.

Ltac frame_close :=
  repeat match goal with
         | |- _ /\ _ => split
         | |- Forall _ [] => constructor
         | |- Forall _ (enrich_events _) => apply enrich_events_later
         | |- forall resp, _ = Ok resp -> _ =>
             let H := fresh in intros ? H; inversion H; subst; clear H
         | |- (attempts (enrich_events _) <= _)%nat =>
             rewrite enrich_events_attempts; lia
         | |- _ = _ => reflexivity || assumption
         | |- (_ <= _)%nat => unfold attempts; simpl; lia
         end.

(** Every way out of [doFetch] keeps the clock and the cache and only
    adds events: its own fetch first, then at most [retries] further
    fetches, each with fewer retries left; a response that is returned is
    a 2xx one whose body has not been read. *)
Lemma doFetch_frame req retries w r w' :
  doFetch env req retries w = (r, w') ->
  exists evs,
    w' = push (evs ++ [EvFetch retries req]) w /\
    Forall (later_attempt retries) evs /\
    (attempts evs <= retries)%nat /\
    (forall resp, r = Ok resp -> body_reads evs = 0%nat /\ resp_ok resp = true).
Proof.
  revert w r w'. induction retries as [|n IH]; intros w r w';
    rewrite doFetch_unfold;
    destruct (upstream env (length (trace w)) req) as [msg|resp] eqn:Hup.
  - intros [= <- <-]. exists []. frame_close.
  - rewrite settle_eq. destruct (resp_ok resp) eqn:Hok; intros [= <- <-].
    + exists []. frame_close.
    + exists (enrich_events resp). rewrite push_push. frame_close.
  - intros [= <- <-]. exists []. frame_close.
  - destruct (status resp =? 429) eqn:Hst.
    + destruct (retry_delay_pure resp (S n) (push [EvFetch (S n) req] w))
        as [delay Hd].
      unfold bind at 1. rewrite Hd. unfold bind at 1, sleep, emit. simpl.
      intros H. apply IH in H as (evs & -> & Hlater & Hatt & Hok).
      exists (evs ++ [EvFetch n req; EvSleep delay]).
      split; [|split; [|split]].
      * unfold push. simpl. f_equal. now rewrite <- !app_assoc.
      * apply Forall_app. split.
        -- eapply Forall_impl; [exact Hlater |]. apply later_attempt_mono.
        -- repeat constructor.
      * rewrite attempts_app. unfold attempts at 2. simpl. lia.
      * intros resp' ->. destruct (Hok _ eq_refl) as [Hr Hk].
        rewrite body_reads_app, Hr. now split.
    + rewrite settle_eq. destruct (resp_ok resp) eqn:Hok; intros [= <- <-].
      * exists []. frame_close.
      * exists (enrich_events resp). rewrite push_push. frame_close.
Qed.

Lemma later_attempt_no_call evs :
  Forall (later_attempt 2) evs -> calls evs = 0%nat.
Proof.
  induction 1 as [|e evs He _ IH]; [reflexivity |].
  change (calls (e :: evs)) with (calls ([e] ++ evs)). rewrite calls_app, IH.
  destruct e as [k ?| | | |]; try reflexivity.
  simpl in He. destruct k as [|[|[|k]]]; try reflexivity; lia.
Qed.

(** A call through [doFetch] with the default retries is one call,
    whatever its outcome, and at most three HTTP attempts. *)
Lemma doFetch_counts req w r w' :
  doFetch env req 2 w = (r, w') ->
  clock w' = clock w /\ hostCache w' = hostCache w /\
  calls (trace w') = S (calls (trace w)) /\
  (S (attempts (trace w)) <= attempts (trace w') <= attempts (trace w) + 3)%nat.
Proof.
  intros (evs & -> & Hlater & Hatt & _)%doFetch_frame.
  assert (Hone : attempts [EvFetch 2 req] = 1%nat) by reflexivity.
  repeat split; simpl;
    rewrite ?calls_app, ?attempts_app, ?(later_attempt_no_call _ Hlater);
    try reflexivity; lia.
Qed.

(** Against an upstream that only answers 429, a call makes one attempt
    per retry it was given plus one, sleeps between them, and throws the
    enriched 429. *)
Lemma doFetch_rate_limited req retries w :
  (forall k r, exists resp, upstream env k r = Reply resp /\ status resp = 429) ->
  exists resp evs,
    doFetch env req retries w
    = (Throw (upstream_error resp), push evs w) /\
    status resp = 429 /\
    attempts evs = S retries /\
    sleeps evs = retries.
Proof.
  intros Hall. revert w. induction retries as [|n IH]; intros w.
  - destruct (Hall (length (trace w)) req) as (resp & Hup & Hst).
    exists resp, (enrich_events resp ++ [EvFetch 0 req]).
    rewrite doFetch_unfold, Hup, settle_eq.
    unfold resp_ok. rewrite Hst. simpl. rewrite push_push.
    repeat split; try assumption.
    + rewrite attempts_app, enrich_events_attempts. reflexivity.
    + unfold enrich_events. now destruct (body_json resp).
  - destruct (Hall (length (trace w)) req) as (resp & Hup & Hst).
    destruct (doFetch_retry req n w resp Hup Hst) as (delay & _ & ->).
    destruct (IH (push [EvSleep delay; EvFetch (S n) req] w))
      as (resp' & evs & -> & Hst' & Hatt & Hsl).
    exists resp', (evs ++ [EvSleep delay; EvFetch (S n) req]).
    rewrite push_push. repeat split; try assumption.
    + rewrite attempts_app, Hatt. unfold attempts. simpl. lia.
    + revert Hsl. unfold sleeps. rewrite List.filter_app, length_app. simpl. lia.
Qed.

Lemma sleeps_app a b : sleeps (a ++ b) = (sleeps a + sleeps b)%nat.
Proof. unfold sleeps. now rewrite List.filter_app, length_app. Qed.

(** What [retry_delay] computes. *)
Lemma retry_delay_spec resp retries w delay w' :
  retry_delay env resp retries w = (Ok delay, w') ->
  (forall h ra, retry_after resp = Some h -> JS.parseInt h = Fin ra -> 0 < ra ->
                delay = JS.round_double (ra * 1000)) /\
  ((forall h ra, retry_after resp = Some h -> JS.parseInt h = Fin ra -> ra <= 0) ->
   exists jitter, 0 <= jitter < 200 /\
                  delay = (3 - Z.of_nat retries) * 500 + jitter).
Proof.
  unfold retry_delay.
  assert (Hfb : forall d w1,
             (do jitter <- random_below env 200 in
              ret ((3 - Z.of_nat retries) * 500 + jitter)) w = (Ok d, w1) ->
             exists jitter, 0 <= jitter < 200 /\
                            d = (3 - Z.of_nat retries) * 500 + jitter).
  { unfold bind, random_below, ret. intros d w1 [= <- _].
    eexists. split; [|reflexivity]. apply random_below_range. }
  destruct (retry_after resp) as [h|] eqn:Hh; simpl.
  - destruct (Str.eqb h "") eqn:Hempty.
    + apply String.eqb_eq in Hempty as ->. simpl. intros H. split.
      * intros h ra [= <-]. discriminate.
      * intros _. eapply Hfb, H.
    + destruct (JS.parseInt h) as [| |ra] eqn:Hp.
      * intros H. split; [intros ? ? [= <-]; congruence |]. intros _. eapply Hfb, H.
      * intros H. split; [intros ? ? [= <-]; congruence |]. intros _. eapply Hfb, H.
      * destruct (0 <? ra) eqn:Hpos.
        -- intros [= <- _]. split.
           ++ intros ? ? [= <-]. rewrite Hp. now intros [= <-].
           ++ intros Hneg. specialize (Hneg h ra eq_refl Hp). lia.
        -- intros H. split.
           ++ intros ? ? [= <-]. rewrite Hp. intros [= <-]. lia.
           ++ intros _. eapply Hfb, H.
  - intros H. split; [discriminate |]. intros _. eapply Hfb, H.
Qed.

End DispatcherFacts.

(** *** Facts about the host resolver *)

(* From here on [doFetch] is used through the lemmas above. *)
#[local] Arguments doFetch : simpl never.

Section ResolverFacts.

Variable env : Env.

Lemma resp_json_eq resp w :
  resp_json resp w
  = match body_json resp with
    | Some v => (Ok v, push [EvReadJson resp] w)
    | None =>
        (Throw (NativeError "SyntaxError" "Unexpected end of JSON input"),
         push [EvReadJson resp] w)
    end.
Proof. unfold resp_json, bind, emit, ret, throw, push. simpl. now destruct (body_json resp). Qed.

(** A cache hit answers from the cache and touches nothing. *)
Lemma getAssistantBase_hit name w c :
  hostCache w !! KStr name = Some c -> clock w < expiresAt c ->
  getAssistantBase env (JStr name) w = (Ok (host c), w).
Proof.
  intros Hc Hlt. unfold getAssistantBase, bind, Date_now, cache_get, ret. simpl.
  rewrite Hc. now rewrite (proj2 (Z.ltb_lt _ _) Hlt).
Qed.

(** Without a usable entry the resolver goes to the control plane. *)
Lemma getAssistantBase_miss name w :
  (forall c, hostCache w !! KStr name = Some c -> expiresAt c <= clock w) ->
  getAssistantBase env (JStr name) w = discover env (JStr name) (clock w) w.
Proof.
  intros Hc. unfold getAssistantBase, bind, Date_now, cache_get, ret. simpl.
  destruct (hostCache w !! KStr name) as [c|]; [|reflexivity].
  specialize (Hc c eq_refl). now rewrite (proj2 (Z.ltb_ge _ _) Hc).
Qed.

(** Discovery is one call whatever its outcome; when it succeeds it has
    written the entry with the expiry [now + TTL]. *)
Lemma discover_spec name now w r w' :
  discover env (JStr name) now w = (r, w') ->
  clock w' = clock w /\
  calls (trace w') = S (calls (trace w)) /\
  forall base,
    r = Ok base ->
    hostCache w' = <[KStr name := mkEntry base (now + HOST_CACHE_TTL_MS)]> (hostCache w).
Proof.
  unfold discover, encode. unfold bind at 1. simpl. unfold bind at 1.
  destruct (doFetch env _ 2 w) as [[resp|e|] w1] eqn:Hf;
    destruct (doFetch_counts _ _ _ _ _ Hf) as (Hclock & Hcache & Hcalls & _).
  - unfold bind at 1. rewrite resp_json_eq.
    assert (Hread : calls (trace (push [EvReadJson resp] w1)) = S (calls (trace w)))
      by (simpl; exact Hcalls).
    destruct (body_json resp) as [data|].
    + unfold bind at 1, get_prop.
      destruct (JS.nullish data).
      * intros [= <- <-]. repeat split; try assumption. discriminate.
      * unfold ret at 1.
        destruct (negb (JS.truthy (JS.get data "host"))).
        -- intros [= <- <-]. repeat split; try assumption. discriminate.
        -- destruct (JS.get data "host") as [| | | |h| | |];
             try (intros [= <- <-]; repeat split; try assumption; discriminate).
           unfold bind at 1.
           destruct (normalizeAssistantBase _) as [base|]; simpl.
           ++ intros [= <- <-]. simpl. rewrite Hcache.
              repeat split; try assumption. now intros ? [= <-].
           ++ intros [= <- <-]. repeat split; try assumption. discriminate.
    + intros [= <- <-]. repeat split; try assumption. discriminate.
  - intros [= <- <-]. repeat split; try assumption. discriminate.
  - intros [= <- <-]. repeat split; try assumption. discriminate.
Qed.

End ResolverFacts.

(** *** Facts about the file operations *)

Section FileFacts.

Variable env : Env.

Lemma deleteFile_unfold base name fileId n f w :
  JS.to_string name = Some n -> JS.to_string fileId = Some f ->
  deleteFile env base name fileId w
  = match doFetch env (mkRequest "DELETE"
                         (base +:+ "/files/" +:+ JS.encodeURIComponent n +:+ "/"
                          +:+ JS.encodeURIComponent f)
                         (get_headers env) None) 2 w with
    | (Ok resp, w1) =>
        if (status resp =? 200) || (status resp =? 204) then
          (Ok (JObj [("deleted", JBool true); ("file_id", fileId)]), w1)
        else resp_json resp w1
    | (Throw e, w1) => (Throw e, w1)
    | (Unmodelled, w1) => (Unmodelled, w1)
    end.
Proof.
  intros Hn Hf. unfold deleteFile, encode, bind, of_option, ret.
  rewrite Hn, Hf. simpl.
  destruct (doFetch env _ 2 w) as [[resp| |] w1]; try reflexivity.
  now destruct ((status resp =? 200) || (status resp =? 204)).
Qed.

End FileFacts.

(** *** Facts about the handler *)

Lemma bind_ok {A B} (m : M A) (k : A -> M B) w a w1 :
  m w = (Ok a, w1) -> bind m k w = k a w1.
Proof. intros H. unfold bind. now rewrite H. Qed.

Lemma handler_post env req b w :
  method req = "POST" -> unauthorized env req = false -> parsed_body req = Some b ->
  handler env req w = try_catch (route env req b) (on_error env req) w.
Proof.
  intros Hm Ha Hb. unfold handler. rewrite Hm, Ha. simpl.
  unfold parsed_body in Hb. destruct (body req) as [t [v|]|v].
  - now injection Hb as ->.
  - discriminate.
  - destruct v; try discriminate; now injection Hb as <-.
Qed.

(** A 200 answer comes back from [doFetch] at the first attempt. *)
Lemma doFetch_first_try env req retries w resp :
  upstream env (length (trace w)) req = Reply resp ->
  status resp = 200 ->
  doFetch env req retries w = (Ok resp, push [EvFetch retries req] w).
Proof.
  intros Hup Hst. rewrite doFetch_unfold, Hup, settle_eq.
  unfold resp_ok. rewrite Hst. now destruct retries.
Qed.


Lemma truthy_host d h :
  JS.get d "host" = JStr h -> h <> "" ->
  JS.nullish d = false /\ JS.truthy (JS.get d "host") = true.
Proof.
  intros Hh Hne. split.
  - destruct d; try reflexivity; discriminate Hh.
  - rewrite Hh. simpl. unfold Str.eqb.
    destruct (String.eqb_spec h ""); [congruence | reflexivity].
Qed.

(** Discovery against a control plane that answers 200 with a host the
    normaliser accepts. *)
Lemma discover_ok env name now w r1 d h base :
  upstream env (length (trace w))
    (mkRequest "GET" (assistants_url +:+ "/" +:+ JS.encodeURIComponent name)
       (get_headers env) None) = Reply r1 ->
  status r1 = 200 -> body_json r1 = Some d -> JS.get d "host" = JStr h ->
  normalizeAssistantBase (if Str.startsWith h "http" then h else "https://" +:+ h)
  = Some base ->
  discover env (JStr name) now w
  = (Ok base,
     mkWorld (clock w)
       (<[KStr name := mkEntry base (now + HOST_CACHE_TTL_MS)]> (hostCache w))
       ([EvReadJson r1;
         EvFetch 2 (mkRequest "GET"
                      (assistants_url +:+ "/" +:+ JS.encodeURIComponent name)
                      (get_headers env) None)] ++ trace w)).
Proof.
  intros Hup Hst Hd Hh Hbase.
  assert (Hne : h <> "") by (intros ->; discriminate Hbase).
  destruct (truthy_host d h Hh Hne) as [Hnn Htr].
  unfold discover.
  rewrite (bind_ok (encode (JStr name)) _ w (JS.encodeURIComponent name) w eq_refl).
  rewrite (bind_ok _ _ _ _ _ (doFetch_first_try env _ 2 w r1 Hup Hst)).
  erewrite bind_ok by (rewrite resp_json_eq, Hd; reflexivity).
  erewrite bind_ok by (unfold get_prop; rewrite Hnn; reflexivity).
  rewrite Htr, Hh. change (negb true) with false. cbv iota.
  erewrite bind_ok by (rewrite Hbase; reflexivity).
  reflexivity.
Qed.
Lemma name_missing b :
  JS.truthy (JS.get (JS.or b (JObj [])) "assistant_name") = false ->
  JS.truthy (JS.get (JS.or b (JObj [])) "assistant_id") = false ->
  JS.truthy (JS.or (JS.get (JS.or b (JObj [])) "assistant_name")
               (JS.get (JS.or b (JObj [])) "assistant_id")) = false.
Proof. intros H1 H2. unfold JS.or at 1. now rewrite H1. Qed.

Lemma filter_truthy_null items :
  List.filter JS.truthy (items ++ [JNull]) = List.filter JS.truthy items.
Proof. rewrite List.filter_app. simpl. apply app_nil_r. Qed.

(** The payload of a chat whose message is falsy and whose context is
    the array [items]. *)
Lemma chat_payload_no_message data items w :
  JS.truthy (JS.get (JS.or data (JObj [])) "message") = false ->
  JS.default (JS.get (JS.or data (JObj [])) "context") (JArr []) = JArr items ->
  exists rest,
    chat_payload data w
    = (Ok (JObj (("messages", JArr (List.filter JS.truthy items)) :: rest)), w) /\
    forall data',
      JS.truthy (JS.get (JS.or data' (JObj [])) "message") = false ->
      (forall k, k <> "message" ->
                 JS.get (JS.or data' (JObj [])) k = JS.get (JS.or data (JObj [])) k) ->
      chat_payload data' w
      = (Ok (JObj (("messages", JArr (List.filter JS.truthy items)) :: rest)), w).
Proof.
  intros Hmsg Hctx. eexists. split.
  - unfold chat_payload. cbv zeta. rewrite Hctx, Hmsg.
    unfold spread, bind, ret. rewrite filter_truthy_null. reflexivity.
  - intros data' Hmsg' Hsame. unfold chat_payload. cbv zeta.
    rewrite Hmsg', !Hsame by discriminate. rewrite Hctx.
    unfold spread, bind, ret. rewrite filter_truthy_null. reflexivity.
Qed.

Lemma tail_cons (x : Event) l t :
  (exists evs, l = evs ++ t) -> exists evs, x :: l = evs ++ t.
Proof. intros [evs ->]. now exists (x :: evs). Qed.

Lemma tail_fetch (evs : list Event) e t :
  exists evs', (evs ++ [e]) ++ t = evs' ++ e :: t.
Proof. exists evs. now rewrite <- app_assoc. Qed.

(** * The properties of the specification *)

(** C1. A resolution that finds no usable entry for the name and succeeds
    is one discovery call and leaves the entry [{host: base, expiresAt:
    now + 5 minutes}]; while that entry is in the cache, every resolution
    at a time before [expiresAt] returns [base] and does nothing else (no
    call), and every resolution at [expiresAt] or later is one more
    discovery call which, when it succeeds, overwrites the entry with the
    expiry counted from its own time. *)
Theorem getAssistantBase_cached_for_ttl env (name : string) w base w1 :
  (forall c, hostCache w !! KStr name = Some c -> expiresAt c <= clock w) ->
  getAssistantBase env (JStr name) w = (Ok base, w1) ->
  calls (trace w1) = S (calls (trace w)) /\
  hostCache w1 !! KStr name = Some (mkEntry base (clock w + 5 * 60 * 1000)) /\
  (forall w2,
      hostCache w2 !! KStr name = hostCache w1 !! KStr name ->
      clock w2 < clock w + 5 * 60 * 1000 ->
      getAssistantBase env (JStr name) w2 = (Ok base, w2)) /\
  (forall w2 r w3,
      hostCache w2 !! KStr name = hostCache w1 !! KStr name ->
      clock w + 5 * 60 * 1000 <= clock w2 ->
      getAssistantBase env (JStr name) w2 = (r, w3) ->
      calls (trace w3) = S (calls (trace w2)) /\
      forall base',
        r = Ok base' ->
        hostCache w3 !! KStr name
        = Some (mkEntry base' (clock w2 + 5 * 60 * 1000))).
Proof.
  intros Hmiss Hrun. rewrite (getAssistantBase_miss env name w Hmiss) in Hrun.
  apply discover_spec in Hrun as (_ & Hcalls & Hentry).
  specialize (Hentry base eq_refl).
  assert (Hlook : hostCache w1 !! KStr name
                  = Some (mkEntry base (clock w + 5 * 60 * 1000)))
    by (rewrite Hentry; apply lookup_insert_eq).
  split; [exact Hcalls |]. split; [exact Hlook |]. split.
  - intros w2 Hsame Hlt. rewrite Hlook in Hsame.
    now apply (getAssistantBase_hit env name w2 _ Hsame).
  - intros w2 r w3 Hsame Hge Hrun2. rewrite Hlook in Hsame.
    rewrite (getAssistantBase_miss env name w2) in Hrun2.
    + apply discover_spec in Hrun2 as (_ & Hcalls2 & Hentry2).
      split; [exact Hcalls2 |]. intros base' ->.
      rewrite (Hentry2 base' eq_refl). apply lookup_insert_eq.
    + intros c Hc. rewrite Hsame in Hc. injection Hc as <-. exact Hge.
Qed.

Lemma getAssistantBase_cached_witness :
  getAssistantBase (Example.platform (Example.serving 200 None)) (JStr "demo")
    (set_clock 300999
       (snd (getAssistantBase (Example.platform (Example.serving 200 None))
               (JStr "demo") Example.idle)))
  = (Ok Example.base,
     set_clock 300999
       (snd (getAssistantBase (Example.platform (Example.serving 200 None))
               (JStr "demo") Example.idle))).
Proof.
  apply (proj1 (proj2 (proj2
           (getAssistantBase_cached_for_ttl
              (Example.platform (Example.serving 200 None)) "demo" Example.idle
              Example.base
              (snd (getAssistantBase (Example.platform (Example.serving 200 None))
                      (JStr "demo") Example.idle))
              ltac:(intros c Hc; discriminate Hc)
              ltac:(vm_compute; reflexivity))))).
  - reflexivity.
  - vm_compute. reflexivity.
Defined.

(** C2. Against an upstream that answers 429 to everything, a call
    through [doFetch] makes three attempts in all (two retries, each after
    a backoff sleep) and then throws the error built from a 429 response;
    [doFetch] is structurally recursive on the retries left, so it always
    ends. *)
Theorem doFetch_gives_up_after_two_retries env req w :
  (forall k r, exists resp, upstream env k r = Reply resp /\ status resp = 429) ->
  exists resp w',
    doFetch env req 2 w = (Throw (upstream_error resp), w') /\
    status resp = 429 /\
    attempts (trace w') = (attempts (trace w) + 3)%nat /\
    sleeps (trace w') = (sleeps (trace w) + 2)%nat /\
    calls (trace w') = S (calls (trace w)).
Proof.
  intros Hall.
  destruct (doFetch_rate_limited env req 2 w Hall) as (resp & evs & Hrun & Hst & Hatt & Hsl).
  exists resp, (push evs w). split; [exact Hrun |]. split; [exact Hst |].
  simpl. rewrite attempts_app, sleeps_app, Hatt, Hsl.
  split; [lia |]. split; [lia |].
  now destruct (doFetch_counts _ _ _ _ _ Hrun) as (_ & _ & Hcalls & _).
Qed.

Lemma doFetch_gives_up_witness :
  exists resp w',
    doFetch (Example.platform Example.busy)
      (mkRequest "GET" "https://api.pinecone.io/assistant/assistants" [] None)
      2 Example.idle
    = (Throw (upstream_error resp), w') /\
    status resp = 429 /\
    attempts (trace w') = (attempts (trace Example.idle) + 3)%nat /\
    sleeps (trace w') = (sleeps (trace Example.idle) + 2)%nat /\
    calls (trace w') = S (calls (trace Example.idle)).
Proof.
  apply (doFetch_gives_up_after_two_retries (Example.platform Example.busy)).
  intros k r. eexists. split; reflexivity.
Defined.

(** C3, on the code: a search with neither query nor messages, a name and
    an empty host cache.  The handler resolves the host first, so the
    control plane is called before the 400 goes out; and when that call
    fails, its error is what the client gets. *)
Theorem search_validates_after_discovery :
  (exists res w',
      handler (Example.platform (Example.serving 200 None))
        (Example.post (JObj [("action", JStr "search");
                             ("assistant_name", JStr "demo");
                             ("data", JObj [])]))
        Example.idle
      = (Ok res, w') /\
      res_status res = 400 /\
      res_body res = Some (failure "search: provide 'query' or 'messages'") /\
      trace w'
      = [EvReadJson (mkResponse 200 "OK"
                       "https://api.pinecone.io/assistant/assistants/demo" None
                       (Some (JObj [("host", JStr "demo-abc.svc.pinecone.io")])) None);
         EvFetch 2 (mkRequest "GET"
                      "https://api.pinecone.io/assistant/assistants/demo"
                      [("Api-Key", "pc-key"); ("X-Pinecone-API-Version", "2025-04")]
                      None)] /\
      calls (trace w') = 1%nat) /\
  (exists res w',
      handler (Example.platform Example.busy)
        (Example.post (JObj [("action", JStr "search");
                             ("assistant_name", JStr "demo");
                             ("data", JObj [])]))
        Example.idle
      = (Ok res, w') /\
      res_status res = 429 /\ attempts (trace w') = 3%nat).
Proof.
  split.
  - do 2 eexists. split; [reflexivity |]. repeat split.
  - do 2 eexists. split; [reflexivity |]. repeat split.
Qed.

(** C4 as stated fails for [store]: without a name it answers 501. *)
Lemma store_without_name_is_501 :
  exists res,
    handler (Example.platform Example.busy)
      (Example.post (JObj [("action", JStr "store")])) Example.idle
    = (Ok res, Example.idle) /\
    res_status res = 501 /\ res_status res <> 400.
Proof. eexists. split; [reflexivity |]. split; [reflexivity | discriminate]. Qed.

(** C4 (amended). A POST that passes the bearer check, names one of
    chat, search, describeAssistant, listFiles or deleteFile and carries
    neither a truthy [assistant_name] nor a truthy [assistant_id] is
    answered 400 "assistant_name is required" with the world untouched: no
    network call.  [store] answers 501 there, and needs no name. *)
Theorem name_required_before_any_call env req b a w :
  method req = "POST" -> unauthorized env req = false ->
  parsed_body req = Some b ->
  action_of (JS.get (JS.or b (JObj [])) "action") = Some a ->
  JS.truthy (JS.get (JS.or b (JObj [])) "assistant_name") = false ->
  JS.truthy (JS.get (JS.or b (JObj [])) "assistant_id") = false ->
  (a <> ListAssistants -> a <> Store ->
   handler env req w
   = (Ok (answer env req 400 (failure "assistant_name is required")), w)) /\
  (a = Store ->
   exists r, handler env req w = (Ok r, w) /\ res_status r = 501).
Proof.
  intros Hm Ha Hb Hact Hn1 Hn2.
  rewrite (handler_post env req b w Hm Ha Hb).
  pose proof (name_missing b Hn1 Hn2) as Hname.
  unfold try_catch, route. rewrite Hact, Hname.
  split.
  - intros Hl Hs. destruct a; try reflexivity; congruence.
  - intros ->. eexists. split; reflexivity.
Qed.

Lemma name_required_witness :
  handler (Example.platform Example.busy)
    (Example.post (JObj [("action", JStr "deleteFile");
                         ("data", JObj [("file_id", JStr "file-1")])]))
    Example.idle
  = (Ok (answer (Example.platform Example.busy)
           (Example.post (JObj [("action", JStr "deleteFile");
                                ("data", JObj [("file_id", JStr "file-1")])]))
           400 (failure "assistant_name is required")),
     Example.idle).
Proof.
  refine (proj1 (name_required_before_any_call
                   (Example.platform Example.busy)
                   (Example.post (JObj [("action", JStr "deleteFile");
                                        ("data", JObj [("file_id", JStr "file-1")])]))
                   (JObj [("action", JStr "deleteFile");
                          ("data", JObj [("file_id", JStr "file-1")])])
                   DeleteFile Example.idle _ _ _ _ _ _) _ _);
    try reflexivity; discriminate.
Defined.

(** C5 as stated fails: the data of the result also has the field
    [context_snippets]. *)
Lemma chat_scenario_has_context_snippets :
  exists res w',
    handler (Example.platform (Example.serving 200 None))
      (Example.post (JObj [("action", JStr "chat");
                           ("data", JObj [("message", JStr "hello")]);
                           ("assistant_name", JStr "demo")]))
      Example.idle
    = (Ok res, w') /\
    res_body res
    = Some (JObj [("success", JBool true); ("type", JStr "chat");
                  ("data",
                   JObj [("response", JStr "hi"); ("citations", JArr []);
                         ("context_snippets", JArr []); ("usage", JObj []);
                         ("model", JUndefined)])]) /\
    res_body res
    <> Some (JObj [("success", JBool true); ("type", JStr "chat");
                   ("data",
                    JObj [("response", JStr "hi"); ("citations", JArr []);
                          ("usage", JObj []); ("model", JUndefined)])]).
Proof. do 2 eexists. split; [reflexivity |]. split; [reflexivity | discriminate]. Qed.

(** C5 (amended). The chat scenario: action [chat], data [{message:
    "hello"}], assistant [demo], nothing cached for it.  Discovery is
    answered 200 with a host that normalises to [base]; the handler then
    posts to [base/chat/demo] the payload with the one user turn, model
    [gpt-4o], temperature 0, stream and include_highlights off; answered
    200 with [{message: {content: "hi"}}] it returns exactly [{success:
    true, type: "chat", data: {response: "hi", citations: [],
    context_snippets: [], usage: {}, model: undefined}}].  Two calls went
    out, and the host is cached for five minutes. *)
Theorem chat_scenario env req fields w r1 d h base r2 :
  method req = "POST" -> unauthorized env req = false ->
  parsed_body req = Some (JObj fields) ->
  JS.assoc "action" fields = JStr "chat" ->
  JS.assoc "assistant_name" fields = JStr "demo" ->
  JS.assoc "assistant_host" fields = JUndefined ->
  JS.assoc "data" fields = JObj [("message", JStr "hello")] ->
  hostCache w !! KStr "demo" = None ->
  upstream env (length (trace w))
    (mkRequest "GET" "https://api.pinecone.io/assistant/assistants/demo"
       (get_headers env) None) = Reply r1 ->
  status r1 = 200 -> body_json r1 = Some d -> JS.get d "host" = JStr h ->
  normalizeAssistantBase (if Str.startsWith h "http" then h else "https://" +:+ h)
  = Some base ->
  upstream env (S (S (length (trace w))))
    (mkRequest "POST" (base +:+ "/chat/demo") (post_headers env)
       (Some scenario_payload)) = Reply r2 ->
  status r2 = 200 ->
  body_json r2 = Some (JObj [("message", JObj [("content", JStr "hi")])]) ->
  handler env req w
  = (Ok (answer env req 200
           (JObj [("success", JBool true); ("type", JStr "chat");
                  ("data",
                   JObj [("response", JStr "hi"); ("citations", JArr []);
                         ("context_snippets", JArr []); ("usage", JObj []);
                         ("model", JUndefined)])])),
     mkWorld (clock w)
       (<[KStr "demo" := mkEntry base (clock w + 5 * 60 * 1000)]> (hostCache w))
       ([EvReadJson r2;
         EvFetch 2 (mkRequest "POST" (base +:+ "/chat/demo") (post_headers env)
                      (Some scenario_payload));
         EvReadJson r1;
         EvFetch 2 (mkRequest "GET" "https://api.pinecone.io/assistant/assistants/demo"
                      (get_headers env) None)] ++ trace w)).
Proof.
  intros Hm Ha Hb Hact Hname Hhost Hdata Hcold Hup1 Hst1 Hd Hh Hbase Hup2 Hst2 Hout.
  rewrite (handler_post env req _ w Hm Ha Hb).
  unfold try_catch, route. cbv zeta.
  change (JS.or (JObj fields) (JObj [])) with (JObj fields).
  change (JS.get (JObj fields)) with (fun k => JS.assoc k fields). cbv beta.
  rewrite Hact, Hname, Hhost, Hdata.
  change (action_of (JStr "chat")) with (Some Chat). cbv iota.
  change (JS.or (JStr "demo") (JS.assoc "assistant_id" fields)) with (JStr "demo").
  change (negb (JS.truthy (JStr "demo"))) with false. cbv iota.
  erewrite bind_ok.
  2:{ unfold resolve_base. change (JS.truthy JUndefined) with false. cbv iota.
      rewrite (getAssistantBase_miss env "demo" w)
        by (intros c Hc; rewrite Hcold in Hc; discriminate).
      exact (discover_ok env "demo" (clock w) w r1 d h base Hup1 Hst1 Hd Hh Hbase). }
  erewrite bind_ok by reflexivity.
  erewrite bind_ok by reflexivity.
  erewrite bind_ok by (apply doFetch_first_try; [exact Hup2 | exact Hst2]).
  erewrite bind_ok by (rewrite resp_json_eq, Hout; reflexivity).
  reflexivity.
Qed.


Lemma chat_scenario_witness :
  exists w',
    handler (Example.platform (Example.serving 200 None))
      (Example.post (JObj [("action", JStr "chat");
                           ("data", JObj [("message", JStr "hello")]);
                           ("assistant_name", JStr "demo")]))
      Example.idle
    = (Ok (answer (Example.platform (Example.serving 200 None))
             (Example.post (JObj [("action", JStr "chat");
                                  ("data", JObj [("message", JStr "hello")]);
                                  ("assistant_name", JStr "demo")]))
             200
             (JObj [("success", JBool true); ("type", JStr "chat");
                    ("data",
                     JObj [("response", JStr "hi"); ("citations", JArr []);
                           ("context_snippets", JArr []); ("usage", JObj []);
                           ("model", JUndefined)])])),
       w').
Proof.
  eexists.
  refine (chat_scenario (Example.platform (Example.serving 200 None))
            (Example.post (JObj [("action", JStr "chat");
                                 ("data", JObj [("message", JStr "hello")]);
                                 ("assistant_name", JStr "demo")]))
            [("action", JStr "chat");
             ("data", JObj [("message", JStr "hello")]);
             ("assistant_name", JStr "demo")]
            Example.idle
            (mkResponse 200 "OK" "https://api.pinecone.io/assistant/assistants/demo"
               None (Some (JObj [("host", JStr "demo-abc.svc.pinecone.io")])) None)
            (JObj [("host", JStr "demo-abc.svc.pinecone.io")])
            "demo-abc.svc.pinecone.io" Example.base
            (mkResponse 200 "OK" "https://demo-abc.svc.pinecone.io/assistant/chat/demo"
               None (Some (JObj [("message", JObj [("content", JStr "hi")])])) None)
            _ _ _ _ _ _ _ _ _ _ _ _ _ _ _ _);
    reflexivity.
Defined.

(** C6. When the response [doFetch] hands back for the DELETE has status
    200 or 204, [deleteFile] returns [{deleted: true, file_id}] and the
    response body is never read, so it need not parse. *)
Theorem deleteFile_acknowledged env base name fileId n f w resp w1 :
  JS.to_string name = Some n -> JS.to_string fileId = Some f ->
  doFetch env (mkRequest "DELETE"
                 (base +:+ "/files/" +:+ JS.encodeURIComponent n +:+ "/"
                  +:+ JS.encodeURIComponent f)
                 (get_headers env) None) 2 w = (Ok resp, w1) ->
  status resp = 200 \/ status resp = 204 ->
  deleteFile env base name fileId w
  = (Ok (JObj [("deleted", JBool true); ("file_id", fileId)]), w1) /\
  body_reads (trace w1) = body_reads (trace w).
Proof.
  intros Hn Hf Hrun Hst. rewrite (deleteFile_unfold env base name fileId n f w Hn Hf), Hrun.
  split.
  - destruct Hst as [-> | ->]; reflexivity.
  - apply doFetch_frame in Hrun as (evs & -> & _ & _ & Hok).
    destruct (Hok resp eq_refl) as [Hreads _]. simpl.
    rewrite !body_reads_app, Hreads. reflexivity.
Qed.

Lemma deleteFile_acknowledged_witness :
  deleteFile (Example.platform (Example.serving 204 None))
    Example.base (JStr "demo") (JStr "file-1") Example.idle
  = (Ok (JObj [("deleted", JBool true); ("file_id", JStr "file-1")]),
     push [EvFetch 2 (mkRequest "DELETE"
                        "https://demo-abc.svc.pinecone.io/assistant/files/demo/file-1"
                        [("Api-Key", "pc-key"); ("X-Pinecone-API-Version", "2025-04")]
                        None)]
       Example.idle).
Proof.
  refine (proj1 (deleteFile_acknowledged
                   (Example.platform (Example.serving 204 None))
                   Example.base (JStr "demo") (JStr "file-1") "demo" "file-1"
                   Example.idle
                   (mkResponse 204 ""
                      "https://demo-abc.svc.pinecone.io/assistant/files/demo/file-1"
                      None None None) _ _ _ _ _));
    [reflexivity | reflexivity | reflexivity | right; reflexivity].
Defined.






(** C9 as stated fails: with the context [[null]] and the message [""]
    the messages sent are [[]], not the context. *)
Lemma chat_drops_falsy_context_entries :
  exists res w' payload,
    handler (Example.platform (Example.serving 200 None))
      (Example.post (JObj [("action", JStr "chat");
                           ("assistant_name", JStr "demo");
                           ("assistant_host", JStr "demo-abc.svc.pinecone.io");
                           ("data", JObj [("message", JStr "");
                                          ("context", JArr [JNull])])]))
      Example.idle
    = (Ok res, w') /\
    last (trace w')
    = Some (EvFetch 2 (mkRequest "POST"
                         "https://demo-abc.svc.pinecone.io/assistant/chat/demo"
                         [("Api-Key", "pc-key"); ("Content-Type", "application/json");
                          ("X-Pinecone-API-Version", "2025-04")]
                         (Some payload))) /\
    JS.get payload "messages" = JArr [] /\
    JS.get payload "messages" <> JArr [JNull].
Proof.
  do 3 eexists. split; [reflexivity |]. split; [reflexivity |].
  split; [reflexivity | discriminate].
Qed.

(** C9 (amended). A chat whose [data.message] is the empty string and
    whose context is absent or an array posts a payload whose messages are
    the truthy entries of the context, in order: the context itself when
    it has no falsy entry.  It is the payload of the same data with the
    message absent. *)
Theorem chat_empty_message_dropped env req b w base w1 n items :
  let fields := JS.or b (JObj []) in
  let name := JS.or (JS.get fields "assistant_name") (JS.get fields "assistant_id") in
  let data := JS.or (JS.default (JS.get fields "data") (JObj [])) (JObj []) in
  method req = "POST" -> unauthorized env req = false ->
  parsed_body req = Some b ->
  JS.get fields "action" = JStr "chat" ->
  JS.truthy name = true -> JS.to_string name = Some n ->
  resolve_base env (JS.get fields "assistant_host") name w = (Ok base, w1) ->
  JS.get data "message" = JStr "" ->
  JS.default (JS.get data "context") (JArr []) = JArr items ->
  exists rest r w',
    handler env req w = (r, w') /\
    (exists evs,
        trace w'
        = evs ++ EvFetch 2 (mkRequest "POST"
                              (base +:+ "/chat/" +:+ JS.encodeURIComponent n)
                              (post_headers env)
                              (Some (JObj (("messages",
                                            JArr (List.filter JS.truthy items))
                                           :: rest))))
              :: trace w1) /\
    (forall data',
        JS.truthy (JS.get (JS.or data' (JObj [])) "message") = false ->
        (forall k, k <> "message" -> JS.get (JS.or data' (JObj [])) k = JS.get data k) ->
        chat_payload data' w1
        = (Ok (JObj (("messages", JArr (List.filter JS.truthy items)) :: rest)), w1)) /\
    (List.forallb JS.truthy items = true -> List.filter JS.truthy items = items).
Proof.
  intros fields name data Hm Ha Hb Hact Hname Hn Hbase Hmsg Hctx.
  assert (Hall : List.forallb JS.truthy items = true ->
                 List.filter JS.truthy items = items).
  { clear. induction items as [|v items IH]; [reflexivity |]. simpl.
    intros [Hv Hi]%andb_true_iff. now rewrite Hv, (IH Hi). }
  destruct (chat_payload_no_message (JS.default (JS.get fields "data") (JObj [])) items w1)
    as (rest & Hpay & Habsent).
  { fold data. now rewrite Hmsg. }
  { exact Hctx. }
  exists rest.
  rewrite (handler_post env req b w Hm Ha Hb).
  unfold try_catch, route. cbv zeta. fold fields. rewrite Hact.
  change (action_of (JStr "chat")) with (Some Chat). cbv iota.
  fold name. rewrite Hname. change (negb true) with false. cbv iota.
  rewrite (bind_ok _ _ _ _ _ Hbase), (bind_ok _ _ _ _ _ Hpay).
  erewrite bind_ok by (unfold encode; rewrite Hn; reflexivity).
  unfold bind at 1.
  destruct (doFetch env _ 2 w1) as [[resp|e|] w2] eqn:Hrun;
    apply doFetch_frame in Hrun as (evs & -> & _).
  - unfold bind at 1. rewrite resp_json_eq.
    destruct (body_json resp) as [out|].
    + unfold bind at 1, chat_result. unfold bind at 1, get_prop.
      destruct (JS.nullish out);
        (do 2 eexists; split; [reflexivity |]; split; [|split; [exact Habsent | exact Hall]];
         simpl; repeat apply tail_cons; apply tail_fetch).
    + do 2 eexists. split; [reflexivity |]. split; [|split; [exact Habsent | exact Hall]].
      simpl. repeat apply tail_cons. apply tail_fetch.
  - do 2 eexists. split; [reflexivity |]. split; [|split; [exact Habsent | exact Hall]].
    simpl. repeat apply tail_cons. apply tail_fetch.
  - do 2 eexists. split; [reflexivity |]. split; [|split; [exact Habsent | exact Hall]].
    simpl. repeat apply tail_cons. apply tail_fetch.
Qed.

Lemma chat_empty_message_witness :
  exists r w',
    handler (Example.platform (Example.serving 200 None))
      (Example.post (JObj [("action", JStr "chat");
                           ("assistant_name", JStr "demo");
                           ("assistant_host", JStr "demo-abc.svc.pinecone.io");
                           ("data", JObj [("message", JStr "");
                                          ("context", JArr [JStr "earlier"; JNull])])]))
      Example.idle
    = (r, w').
Proof.
  destruct (chat_empty_message_dropped
              (Example.platform (Example.serving 200 None))
              (Example.post (JObj [("action", JStr "chat");
                                   ("assistant_name", JStr "demo");
                                   ("assistant_host", JStr "demo-abc.svc.pinecone.io");
                                   ("data", JObj [("message", JStr "");
                                                  ("context",
                                                   JArr [JStr "earlier"; JNull])])]))
              (JObj [("action", JStr "chat");
                     ("assistant_name", JStr "demo");
                     ("assistant_host", JStr "demo-abc.svc.pinecone.io");
                     ("data", JObj [("message", JStr "");
                                    ("context", JArr [JStr "earlier"; JNull])])])
              Example.idle Example.base Example.idle "demo"
              [JStr "earlier"; JNull]
              eq_refl eq_refl eq_refl eq_refl eq_refl eq_refl eq_refl eq_refl eq_refl)
    as (rest & r & w' & Hrun & _).
  exists r, w'. exact Hrun.
Defined.

(** C10 as stated fails: a 202 whose body is not JSON is a 2xx answer
    other than 200 and 204, and [deleteFile] returns nothing for it: the
    body read throws, and the handler answers 500. *)
Lemma deleteFile_accepted_without_json :
  fst (deleteFile (Example.platform (Example.serving 202 None))
         Example.base (JStr "demo") (JStr "file-1") Example.idle)
  = Throw (NativeError "SyntaxError" "Unexpected end of JSON input") /\
  option_map res_status
    (match fst (handler (Example.platform (Example.serving 202 None))
                  (Example.post (JObj [("action", JStr "deleteFile");
                                       ("assistant_name", JStr "demo");
                                       ("data", JObj [("file_id", JStr "file-1")])]))
                  Example.idle) with
     | Ok res => Some res
     | _ => None
     end) = Some 500.
Proof. split; reflexivity. Qed.

(** C10 (amended). When the response [doFetch] hands back for the DELETE
    has a status other than 200 and 204 (it is a 2xx one, 202 say),
    [deleteFile] reads the body as JSON, once: it returns the parsed body
    when the body parses, and throws the parse error when it does not. *)
Theorem deleteFile_other_success env base name fileId n f w resp w1 :
  JS.to_string name = Some n -> JS.to_string fileId = Some f ->
  doFetch env (mkRequest "DELETE"
                 (base +:+ "/files/" +:+ JS.encodeURIComponent n +:+ "/"
                  +:+ JS.encodeURIComponent f)
                 (get_headers env) None) 2 w = (Ok resp, w1) ->
  status resp <> 200 -> status resp <> 204 ->
  200 <= status resp <= 299 /\
  (forall v,
      body_json resp = Some v ->
      deleteFile env base name fileId w = (Ok v, push [EvReadJson resp] w1)) /\
  (body_json resp = None ->
   exists e,
     deleteFile env base name fileId w = (Throw e, push [EvReadJson resp] w1)).
Proof.
  intros Hn Hf Hrun H200 H204.
  assert (Hdel : deleteFile env base name fileId w = resp_json resp w1).
  { rewrite (deleteFile_unfold env base name fileId n f w Hn Hf), Hrun.
    apply Z.eqb_neq in H200, H204. now rewrite H200, H204. }
  split; [|split].
  - apply doFetch_frame in Hrun as (evs & _ & _ & _ & Hok).
    destruct (Hok resp eq_refl) as [_ Hrange]. unfold resp_ok in Hrange. lia.
  - intros v Hv. rewrite Hdel, resp_json_eq, Hv. reflexivity.
  - intros Hnone. rewrite Hdel, resp_json_eq, Hnone. eexists. reflexivity.
Qed.

Lemma deleteFile_other_success_witness :
  deleteFile (Example.platform (Example.serving 202 (Some (JObj [("status", JStr "Deleting")]))))
    Example.base (JStr "demo") (JStr "file-1") Example.idle
  = (Ok (JObj [("status", JStr "Deleting")]),
     push [EvReadJson
             (mkResponse 202 ""
                "https://demo-abc.svc.pinecone.io/assistant/files/demo/file-1"
                None (Some (JObj [("status", JStr "Deleting")])) None);
           EvFetch 2 (mkRequest "DELETE"
                        "https://demo-abc.svc.pinecone.io/assistant/files/demo/file-1"
                        [("Api-Key", "pc-key"); ("X-Pinecone-API-Version", "2025-04")]
                        None)]
       Example.idle).
Proof.
  refine (proj1 (proj2 (deleteFile_other_success
                   (Example.platform
                      (Example.serving 202 (Some (JObj [("status", JStr "Deleting")]))))
                   Example.base (JStr "demo") (JStr "file-1") "demo" "file-1"
                   Example.idle
                   (mkResponse 202 ""
                      "https://demo-abc.svc.pinecone.io/assistant/files/demo/file-1"
                      None (Some (JObj [("status", JStr "Deleting")])) None)
                   _ eq_refl eq_refl eq_refl _ _))
            (JObj [("status", JStr "Deleting")]) eq_refl);
    discriminate.
Defined.

(** * Further properties of the code *)

(** ** The fetch wrapper *)

Section DispatcherMore.

Variable env : Env.

Lemma backoff_floor_mono n e : backoff_floor n e -> backoff_floor (S n) e.
Proof. destruct e; simpl; try tauto. lia. Qed.

Lemma enrich_events_sleeps resp : sleeps (enrich_events resp) = 0%nat.
Proof. unfold enrich_events. now destruct (body_json resp). Qed.

Lemma enrich_events_floor n resp : Forall (backoff_floor n) (enrich_events resp).
Proof. unfold enrich_events. destruct (body_json resp); repeat constructor. Qed.

Lemma retry_delay_floor resp retries w delay w' :
  retry_delay env resp retries w = (Ok delay, w') ->
  Z.min 1000 ((3 - Z.of_nat retries) * 500) <= delay.
Proof.
  intros H. destruct (retry_delay_spec env _ _ _ _ _ H) as [Hra Hfb].
  destruct (retry_after resp) as [h|] eqn:Hh.
  - destruct (JS.parseInt h) as [| |ra] eqn:Hp.
    + destruct Hfb as (j & Hj & ->); [intros ? ? [= <-]; congruence | lia].
    + destruct Hfb as (j & Hj & ->); [intros ? ? [= <-]; congruence | lia].
    + destruct (Z_lt_le_dec 0 ra) as [Hpos|Hneg].
      * rewrite (Hra h ra eq_refl Hp Hpos).
        pose proof (round_double_lower (ra * 1000) ltac:(lia)). lia.
      * destruct Hfb as (j & Hj & ->); [|lia].
        intros ? ? [= <-]. rewrite Hp. now intros [= <-].
  - destruct Hfb as (j & Hj & ->); [discriminate | lia].
Qed.

(** The events of a call, seen from the backoff: after its first fetch,
    sleeps and further fetches alternate, and no sleep is shorter than the
    floor of the retries the call started with. *)
Lemma doFetch_backoff req retries w r w' :
  doFetch env req retries w = (r, w') ->
  exists evs,
    w' = push (evs ++ [EvFetch retries req]) w /\
    sleeps evs = attempts evs /\
    (attempts evs <= retries)%nat /\
    Forall (backoff_floor retries) evs.
Proof.
  revert w r w'. induction retries as [|n IH]; intros w r w';
    rewrite doFetch_unfold;
    destruct (upstream env (length (trace w)) req) as [msg|resp] eqn:Hup.
  - intros [= <- <-]. exists []. repeat split; try (unfold attempts, sleeps; simpl; lia); constructor.
  - rewrite settle_eq. destruct (resp_ok resp); intros [= <- <-].
    + exists []. repeat split; try (unfold attempts, sleeps; simpl; lia); constructor.
    + exists (enrich_events resp). rewrite push_push.
      rewrite enrich_events_sleeps, enrich_events_attempts.
      repeat split; try (unfold attempts, sleeps; simpl; lia); apply enrich_events_floor.
  - intros [= <- <-]. exists []. repeat split; try (unfold attempts, sleeps; simpl; lia); constructor.
  - destruct (status resp =? 429) eqn:Hst.
    + destruct (retry_delay_pure env resp (S n) (push [EvFetch (S n) req] w))
        as [delay Hd].
      pose proof (retry_delay_floor _ _ _ _ _ Hd) as Hfloor.
      unfold bind at 1. rewrite Hd. unfold bind at 1, sleep, emit. simpl.
      intros H. apply IH in H as (evs & -> & Hsl & Hatt & Hall).
      exists (evs ++ [EvFetch n req; EvSleep delay]).
      split; [|split; [|split]].
      * unfold push. simpl. f_equal. now rewrite <- !app_assoc.
      * rewrite sleeps_app, attempts_app, Hsl. reflexivity.
      * rewrite attempts_app. unfold attempts at 2. simpl. lia.
      * apply Forall_app. split.
        -- eapply Forall_impl; [exact Hall |]. apply backoff_floor_mono.
        -- repeat constructor. exact Hfloor.
    + rewrite settle_eq. destruct (resp_ok resp); intros [= <- <-].
      * exists []. repeat split; try (unfold attempts, sleeps; simpl; lia); constructor.
      * exists (enrich_events resp). rewrite push_push.
        rewrite enrich_events_sleeps, enrich_events_attempts.
        repeat split; try (unfold attempts, sleeps; simpl; lia); apply enrich_events_floor.
Qed.

(** How a call ends: with a 2xx response, with the rejection of [fetch],
    or with the error enriched from a response that is not 2xx. *)
Lemma doFetch_ends req retries w r w' :
  doFetch env req retries w = (r, w') ->
  match r with
  | Ok resp => resp_ok resp = true
  | Throw e =>
      (exists msg, e = NativeError "TypeError" msg) \/
      (exists resp, e = upstream_error resp /\ resp_ok resp = false)
  | Unmodelled => False
  end.
Proof.
  revert w r w'. induction retries as [|n IH]; intros w r w';
    rewrite doFetch_unfold;
    destruct (upstream env (length (trace w)) req) as [msg|resp] eqn:Hup.
  - intros [= <- <-]. left. now exists msg.
  - rewrite settle_eq. destruct (resp_ok resp) eqn:Hok; intros [= <- <-].
    + exact Hok.
    + right. now exists resp.
  - intros [= <- <-]. left. now exists msg.
  - destruct (status resp =? 429).
    + destruct (retry_delay_pure env resp (S n) (push [EvFetch (S n) req] w))
        as [delay Hd].
      unfold bind at 1. rewrite Hd. unfold bind at 1, sleep, emit. simpl.
      apply IH.
    + rewrite settle_eq. destruct (resp_ok resp) eqn:Hok; intros [= <- <-].
      * exact Hok.
      * right. now exists resp.
Qed.

End DispatcherMore.

(** Anything but a 429 ends the call at once: the response is settled
    after the one attempt, whatever retries are left. *)
Lemma doFetch_settles env req retries w resp :
  upstream env (length (trace w)) req = Reply resp -> status resp <> 429 ->
  doFetch env req retries w
  = if resp_ok resp then (Ok resp, push [EvFetch retries req] w)
    else (Throw (upstream_error resp),
          push (enrich_events resp ++ [EvFetch retries req]) w).
Proof.
  intros Hup Hno%Z.eqb_neq. rewrite doFetch_unfold, Hup, settle_eq, push_push.
  destruct retries; [reflexivity |]. now rewrite Hno.
Qed.

Lemma doFetch_offline env req retries w msg :
  upstream env (length (trace w)) req = NetworkError msg ->
  doFetch env req retries w
  = (Throw (NativeError "TypeError" msg), push [EvFetch retries req] w).
Proof. intros Hup. now rewrite doFetch_unfold, Hup. Qed.

(** X1. Whatever the upstream does, a call through [doFetch] with
    [retries] retries makes between one and [retries + 1] attempts, sleeps
    exactly once before each attempt after the first, and leaves the host
    cache alone. *)
Theorem doFetch_attempts_bounded env req retries w r w' :
  doFetch env req retries w = (r, w') ->
  (S (attempts (trace w)) <= attempts (trace w')
   <= attempts (trace w) + S retries)%nat /\
  (attempts (trace w') - attempts (trace w)
   = S (sleeps (trace w') - sleeps (trace w)))%nat /\
  hostCache w' = hostCache w.
Proof.
  intros (evs & -> & Hsl & Hatt & _)%doFetch_backoff. simpl.
  rewrite !attempts_app, !sleeps_app, Hsl.
  change (attempts [EvFetch retries req]) with 1%nat.
  change (sleeps [EvFetch retries req]) with 0%nat.
  repeat split; lia.
Qed.

Lemma doFetch_attempts_bounded_witness :
  (attempts (trace (snd (doFetch (Example.platform Example.busy)
                           (mkRequest "GET" assistants_url [] None) 2 Example.idle)))
   <= 3)%nat.
Proof.
  destruct (doFetch_attempts_bounded (Example.platform Example.busy)
              (mkRequest "GET" assistants_url [] None) 2 Example.idle
              _ _ eq_refl) as [[_ H] _].
  exact H.
Defined.

(** X2. No backoff sleep of a call made with the default two retries is
    shorter than 500 ms, with or without a Retry-After header. *)
Theorem doFetch_backoff_at_least_500ms env req w r w' :
  doFetch env req 2 w = (r, w') ->
  exists evs,
    trace w' = evs ++ trace w /\
    forall ms, In (EvSleep ms) evs -> 500 <= ms.
Proof.
  intros (evs & -> & _ & _ & Hall)%doFetch_backoff.
  exists (evs ++ [EvFetch 2 req]). split; [reflexivity |].
  intros ms [Hin|Hin]%in_app_or.
  - rewrite Forall_forall in Hall. apply list_elem_of_In in Hin.
    exact (Hall _ Hin).
  - destruct Hin as [Hin|[]]. discriminate Hin.
Qed.

Lemma doFetch_backoff_witness :
  exists evs,
    trace (snd (doFetch (Example.platform Example.busy)
                  (mkRequest "GET" assistants_url [] None) 2 Example.idle))
    = evs ++ trace Example.idle /\
    forall ms, In (EvSleep ms) evs -> 500 <= ms.
Proof.
  exact (doFetch_backoff_at_least_500ms (Example.platform Example.busy)
           (mkRequest "GET" assistants_url [] None) Example.idle
           _ _ eq_refl).
Defined.

(** X3. [doFetch] hands back 2xx responses only, with the body unread; what
    it throws is the rejection of [fetch] or the error enriched from a
    response that is not 2xx. *)
Theorem doFetch_returns_only_success env req retries w r w' :
  doFetch env req retries w = (r, w') ->
  match r with
  | Ok resp =>
      200 <= status resp <= 299 /\
      body_reads (trace w') = body_reads (trace w)
  | Throw e =>
      (exists msg, e = NativeError "TypeError" msg) \/
      (exists resp,
          e = upstream_error resp /\ ~ (200 <= status resp <= 299))
  | Unmodelled => False
  end.
Proof.
  intros Hrun. pose proof (doFetch_ends env req retries w r w' Hrun) as Hend.
  destruct r as [resp|e|]; [| |exact Hend].
  - split; [unfold resp_ok in Hend; lia |].
    apply doFetch_frame in Hrun as (evs & -> & _ & _ & Hok).
    destruct (Hok resp eq_refl) as [Hreads _]. simpl.
    rewrite !body_reads_app, Hreads. reflexivity.
  - destruct Hend as [Hmsg|(resp & -> & Hno)]; [now left | right].
    exists resp. split; [reflexivity |]. unfold resp_ok in Hno. lia.
Qed.

Lemma doFetch_returns_only_success_witness :
  exists resp, ~ (200 <= status resp <= 299) /\
    fst (doFetch (Example.platform Example.busy)
           (mkRequest "GET" assistants_url [] None) 2 Example.idle)
    = Throw (upstream_error resp).
Proof.
  destruct (doFetch_returns_only_success (Example.platform Example.busy)
              (mkRequest "GET" assistants_url [] None) 2 Example.idle
              _ _ eq_refl) as [(msg & Hmsg)|(resp & Herr & Hno)].
  - discriminate Hmsg.
  - exists resp. split; [exact Hno | exact (f_equal Throw Herr)].
Defined.

(** X4. Only a 429 is retried: when the first answer is anything else the
    call is that one attempt, whatever retries it has left.  A rejected
    [fetch] is rethrown, a 2xx response returned, and any other response
    thrown as the enriched error after its body was read. *)
Theorem doFetch_single_attempt_unless_429 env req retries w :
  (forall resp,
      upstream env (length (trace w)) req = Reply resp -> status resp <> 429) ->
  doFetch env req retries w
  = match upstream env (length (trace w)) req with
    | NetworkError msg =>
        (Throw (NativeError "TypeError" msg), push [EvFetch retries req] w)
    | Reply resp =>
        if resp_ok resp then (Ok resp, push [EvFetch retries req] w)
        else (Throw (upstream_error resp),
              push (enrich_events resp ++ [EvFetch retries req]) w)
    end.
Proof.
  intros Hno.
  destruct (upstream env (length (trace w)) req) as [msg|resp] eqn:Hup.
  - exact (doFetch_offline env req retries w msg Hup).
  - exact (doFetch_settles env req retries w resp Hup (Hno resp eq_refl)).
Qed.

Lemma doFetch_single_attempt_witness :
  doFetch (Example.platform (Example.serving 404 None))
    (mkRequest "DELETE" "https://demo-abc.svc.pinecone.io/assistant/files/demo/f" [] None)
    2 Example.idle
  = (Throw (upstream_error
              (mkResponse 404 "" "https://demo-abc.svc.pinecone.io/assistant/files/demo/f"
                 None None None)),
     push [EvReadText (mkResponse 404 ""
                         "https://demo-abc.svc.pinecone.io/assistant/files/demo/f"
                         None None None);
           EvReadJson (mkResponse 404 ""
                         "https://demo-abc.svc.pinecone.io/assistant/files/demo/f"
                         None None None);
           EvFetch 2 (mkRequest "DELETE"
                        "https://demo-abc.svc.pinecone.io/assistant/files/demo/f" [] None)]
       Example.idle).
Proof.
  refine (doFetch_single_attempt_unless_429
            (Example.platform (Example.serving 404 None))
            (mkRequest "DELETE" "https://demo-abc.svc.pinecone.io/assistant/files/demo/f" [] None)
            2 Example.idle _).
  intros resp [= <-]. discriminate.
Defined.

(** X5. A call answered 429 and then 2xx succeeds: it sleeps once, tries
    again, and returns the second response. *)
Theorem doFetch_succeeds_on_retry env req retries w r1 r2 :
  upstream env (length (trace w)) req = Reply r1 -> status r1 = 429 ->
  upstream env (S (S (length (trace w)))) req = Reply r2 ->
  200 <= status r2 <= 299 ->
  exists delay,
    doFetch env req (S retries) w
    = (Ok r2,
       push [EvFetch retries req; EvSleep delay; EvFetch (S retries) req] w).
Proof.
  intros Hup1 Hst1 Hup2 Hst2.
  destruct (doFetch_retry env req retries w r1 Hup1 Hst1) as (delay & _ & ->).
  exists delay.
  rewrite (doFetch_settles env req retries _ r2); [| exact Hup2 | lia].
  unfold resp_ok.
  destruct (Z.leb_spec 200 (status r2)); [|lia].
  destruct (Z.leb_spec (status r2) 299); [|lia]. reflexivity.
Qed.

Lemma doFetch_succeeds_on_retry_witness :
  exists delay,
    doFetch (Example.platform Sample.flaky) Sample.list_request 2 Example.idle
    = (Ok (mkResponse 200 "OK" assistants_url None (Some (JObj [])) None),
       push [EvFetch 1 Sample.list_request; EvSleep delay;
             EvFetch 2 Sample.list_request] Example.idle).
Proof.
  refine (doFetch_succeeds_on_retry (Example.platform Sample.flaky)
            Sample.list_request 1 Example.idle
            (mkResponse 429 "Too Many Requests" assistants_url (Some "1") None None)
            (mkResponse 200 "OK" assistants_url None (Some (JObj [])) None)
            eq_refl eq_refl eq_refl _).
  simpl. lia.
Defined.

(** ** What a request may do *)

Section Judgements.

Context {A B : Type}.

Lemma pure_ret (a : A) : pure (ret a).
Proof. now intros w r w' [= _ <-]. Qed.

Lemma pure_throw e : pure (@throw A e).
Proof. now intros w r w' [= _ <-]. Qed.

Lemma pure_unmodelled : pure (@unmodelled A).
Proof. now intros w r w' [= _ <-]. Qed.

Lemma pure_of_option (o : option A) : pure (of_option o).
Proof. destruct o; [apply pure_ret | apply pure_unmodelled]. Qed.

Lemma pure_bind (m : M A) (k : A -> M B) :
  pure m -> (forall a, pure (k a)) -> pure (bind m k).
Proof.
  intros Hm Hk w r w'. unfold bind.
  destruct (m w) as [[a|e|] w1] eqn:E; pose proof (Hm _ _ _ E) as ->.
  - apply Hk.
  - now intros [= _ <-].
  - now intros [= _ <-].
Qed.

Lemma frame_refl key w : frame key w w.
Proof. split; [now exists [] | reflexivity]. Qed.

Lemma frame_trans key w1 w2 w3 : frame key w1 w2 -> frame key w2 w3 -> frame key w1 w3.
Proof.
  intros ([e1 He1] & Hk1) ([e2 He2] & Hk2). split.
  - exists (e2 ++ e1). now rewrite He2, He1, app_assoc.
  - intros k Hk. now rewrite (Hk2 k Hk), (Hk1 k Hk).
Qed.

Lemma frame_push key evs w : frame key w (push evs w).
Proof. split; [now exists evs | reflexivity]. Qed.

Lemma keeps_pure key (m : M A) : pure m -> keeps (frame key) m.
Proof. intros Hm w r w' E. rewrite (Hm _ _ _ E). apply frame_refl. Qed.

Lemma keeps_bind key (m : M A) (k : A -> M B) :
  keeps (frame key) m -> (forall a, keeps (frame key) (k a)) ->
  keeps (frame key) (bind m k).
Proof.
  intros Hm Hk w r w'. unfold bind.
  destruct (m w) as [[a|e|] w1] eqn:E; pose proof (Hm _ _ _ E) as H1.
  - intros E2. exact (frame_trans _ _ _ _ H1 (Hk _ _ _ _ E2)).
  - now intros [= _ <-].
  - now intros [= _ <-].
Qed.

Lemma keeps_try key (m : M A) (h : JsError -> M A) :
  keeps (frame key) m -> (forall e, keeps (frame key) (h e)) ->
  keeps (frame key) (try_catch m h).
Proof.
  intros Hm Hh w r w'. unfold try_catch.
  destruct (m w) as [[a|e|] w1] eqn:E; pose proof (Hm _ _ _ E) as H1.
  - now intros [= _ <-].
  - intros E2. exact (frame_trans _ _ _ _ H1 (Hh _ _ _ _ E2)).
  - now intros [= _ <-].
Qed.

Lemma spends_pure n (m : M A) : pure m -> spends n m.
Proof. intros Hm w r w' E. rewrite (Hm _ _ _ E). lia. Qed.

Lemma spends_bind a b (m : M A) (k : A -> M B) :
  spends a m -> (forall x, spends b (k x)) -> spends (a + b) (bind m k).
Proof.
  intros Hm Hk w r w'. unfold bind.
  destruct (m w) as [[x|e|] w1] eqn:E; pose proof (Hm _ _ _ E) as H1.
  - intros E2. specialize (Hk _ _ _ _ E2). lia.
  - intros [= _ <-]. lia.
  - intros [= _ <-]. lia.
Qed.

Lemma spends_try n (m : M A) (h : JsError -> M A) :
  spends n m -> (forall e, spends 0 (h e)) -> spends n (try_catch m h).
Proof.
  intros Hm Hh w r w'. unfold try_catch.
  destruct (m w) as [[x|e|] w1] eqn:E; pose proof (Hm _ _ _ E) as H1.
  - now intros [= _ <-].
  - intros E2. specialize (Hh _ _ _ _ E2). lia.
  - now intros [= _ <-].
Qed.

Lemma yields_ret (Q : A -> Prop) a : Q a -> yields Q (ret a).
Proof. now intros Ha w a' w' [= <- _]. Qed.

Lemma yields_try (Q : A -> Prop) (m : M A) (h : JsError -> M A) :
  yields Q m -> (forall e, yields Q (h e)) -> yields Q (try_catch m h).
Proof.
  intros Hm Hh w a w'. unfold try_catch.
  destruct (m w) as [[x|e|] w1] eqn:E; try discriminate.
  - intros [= <- <-]. exact (Hm _ _ _ E).
  - apply Hh.
Qed.

Lemma yields_bind (Q : B -> Prop) (m : M A) (k : A -> M B) :
  (forall a, yields Q (k a)) -> yields Q (bind m k).
Proof.
  intros Hk w b w'. unfold bind.
  destruct (m w) as [[a|e|] w1]; try discriminate. apply Hk.
Qed.

Lemma sends_pure P (m : M A) : pure m -> sends P m.
Proof. intros Hm w r w' E. rewrite (Hm _ _ _ E). now exists []. Qed.

(** The continuation may rely on what the first computation returns. *)
Lemma sends_bind P (Q : A -> Prop) (m : M A) (k : A -> M B) :
  sends P m -> yields Q m -> (forall a, Q a -> sends P (k a)) ->
  sends P (bind m k).
Proof.
  intros Hm HQ Hk w r w'. unfold bind.
  destruct (m w) as [[a|e|] w1] eqn:E; destruct (Hm _ _ _ E) as (e1 & He1 & Hall1).
  - intros E2. destruct (Hk a (HQ _ _ _ E) _ _ _ E2) as (e2 & He2 & Hall2).
    exists (e2 ++ e1). split; [now rewrite He2, He1, app_assoc |].
    apply Forall_app. now split.
  - intros [= _ <-]. now exists e1.
  - intros [= _ <-]. now exists e1.
Qed.

Lemma sends_try P (m : M A) (h : JsError -> M A) :
  sends P m -> (forall e, sends P (h e)) -> sends P (try_catch m h).
Proof.
  intros Hm Hh w r w'. unfold try_catch.
  destruct (m w) as [[a|e|] w1] eqn:E; destruct (Hm _ _ _ E) as (e1 & He1 & Hall1).
  - intros [= _ <-]. now exists e1.
  - intros E2. destruct (Hh e _ _ _ E2) as (e2 & He2 & Hall2).
    exists (e2 ++ e1). split; [now rewrite He2, He1, app_assoc |].
    apply Forall_app. now split.
  - intros [= _ <-]. now exists e1.
Qed.

Lemma yields_any (m : M A) : yields (fun _ => True) m.
Proof. now intros w a w' _. Qed.

End Judgements.

Section ProgramJudgements.

Variable env : Env.

Lemma pure_encode v : pure (encode v).
Proof. apply pure_bind; [apply pure_of_option | intros; apply pure_ret]. Qed.

Lemma pure_get_prop v k : pure (get_prop v k).
Proof. unfold get_prop. destruct (JS.nullish v); [apply pure_throw | apply pure_ret]. Qed.

Lemma pure_normalize_host h : pure (normalize_host h).
Proof. destruct h; try apply pure_throw. apply pure_of_option. Qed.

Lemma pure_spread v : pure (spread v).
Proof.
  destruct v; try apply pure_throw; [|apply pure_ret].
  simpl. destruct (Str.forallb _ _); [apply pure_ret | apply pure_unmodelled].
Qed.

Lemma pure_chat_payload d : pure (chat_payload d).
Proof. apply pure_bind; [apply pure_spread | intros; apply pure_ret]. Qed.

Lemma pure_chat_result out : pure (chat_result out).
Proof. apply pure_bind; [apply pure_get_prop | intros; apply pure_ret]. Qed.

Lemma pure_search_result out : pure (search_result out).
Proof. apply pure_bind; [apply pure_get_prop | intros; apply pure_ret]. Qed.

Lemma keeps_emit key e : keeps (frame key) (emit e).
Proof. intros w r w' [= _ <-]. apply (frame_push key [e]). Qed.

Lemma keeps_resp_json key resp : keeps (frame key) (resp_json resp).
Proof.
  intros w r w'. rewrite resp_json_eq.
  destruct (body_json resp); intros [= _ <-]; apply frame_push.
Qed.

Lemma keeps_doFetch key req retries : keeps (frame key) (doFetch env req retries).
Proof.
  intros w r w' (evs & -> & _)%doFetch_frame. apply frame_push.
Qed.

Lemma keeps_cache_set name entry : keeps (frame (cache_key name)) (cache_set name entry).
Proof.
  intros w r w' [= _ <-]. destruct (cache_key name) as [k|]; [|apply frame_refl].
  split; [now exists [] |]. simpl. intros k' Hk.
  apply lookup_insert_ne. congruence.
Qed.

Lemma spends_resp_json n resp : spends n (resp_json resp).
Proof.
  intros w r w'. rewrite resp_json_eq.
  destruct (body_json resp); intros [= _ <-]; simpl; unfold calls, attempts;
    simpl; lia.
Qed.

Lemma spends_doFetch n req : spends (S n) (doFetch env req 2).
Proof.
  intros w r w' (_ & _ & Hcalls & Hatt)%doFetch_counts. lia.
Qed.

Lemma spends_cache_set n name entry : spends n (cache_set name entry).
Proof.
  intros w r w' [= _ <-]. destruct (cache_key name); simpl; lia.
Qed.

Lemma spends_console n e : spends n (emit (EvConsoleError e)).
Proof. intros w r w' [= _ <-]. simpl. unfold calls, attempts. simpl. lia. Qed.

Ltac pure_tac :=
  first [ apply pure_ret | apply pure_throw | apply pure_unmodelled
        | apply pure_of_option | apply pure_encode | apply pure_get_prop
        | apply pure_normalize_host | apply pure_chat_payload
        | apply pure_chat_result | apply pure_search_result ].

Ltac keep_tac :=
  repeat first
    [ apply keeps_pure; solve [pure_tac]
    | apply keeps_emit
    | apply keeps_resp_json
    | apply keeps_doFetch
    | apply keeps_cache_set
    | apply keeps_bind; [|intros ?]
    | match goal with
      | |- keeps _ (if ?b then _ else _) => destruct b
      | |- keeps _ (match ?x with _ => _ end) => destruct x
      end ].

Lemma pure_Date_now : pure Date_now.
Proof. now intros w r w' [= _ <-]. Qed.

Lemma pure_cache_get name : pure (cache_get name).
Proof. now intros w r w' [= _ <-]. Qed.

Lemma keeps_discover name now : keeps (frame (cache_key name)) (discover env name now).
Proof. unfold discover. keep_tac. Qed.

Lemma keeps_getAssistantBase name :
  keeps (frame (cache_key name)) (getAssistantBase env name).
Proof.
  unfold getAssistantBase.
  apply keeps_bind; [apply keeps_pure, pure_Date_now | intros now].
  apply keeps_bind; [apply keeps_pure, pure_cache_get | intros cached].
  destruct cached as [c|]; [destruct (now <? expiresAt c) |];
    try apply keeps_discover.
  apply keeps_pure, pure_ret.
Qed.

Lemma keeps_resolve_base host name :
  keeps (frame (cache_key name)) (resolve_base env host name).
Proof.
  unfold resolve_base. destruct (JS.truthy host).
  - apply keeps_pure, pure_normalize_host.
  - apply keeps_getAssistantBase.
Qed.

Lemma keeps_describeAssistant key name : keeps (frame key) (describeAssistant env name).
Proof. unfold describeAssistant. keep_tac. Qed.

Lemma keeps_listAssistants key : keeps (frame key) (listAssistants env).
Proof. unfold listAssistants. keep_tac. Qed.

Lemma keeps_listFiles key base name filter :
  keeps (frame key) (listFiles env base name filter).
Proof. unfold listFiles. keep_tac. Qed.

Lemma keeps_deleteFile key base name fileId :
  keeps (frame key) (deleteFile env base name fileId).
Proof. unfold deleteFile. keep_tac. Qed.

Lemma keeps_on_error key req e : keeps (frame key) (on_error env req e).
Proof. unfold on_error. keep_tac. Qed.


Lemma keeps_route req body :
  keeps (frame (cache_key (requested_name body))) (route env req body).
Proof.
  unfold route, requested_name, name_required. cbv zeta.
  destruct (action_of _) as [[]|];
    repeat first
      [ apply keeps_resolve_base
      | apply keeps_describeAssistant
      | apply keeps_listAssistants
      | apply keeps_listFiles
      | apply keeps_deleteFile
      | apply keeps_pure; solve [pure_tac]
      | apply keeps_resp_json
      | apply keeps_doFetch
      | apply keeps_bind; [|intros ?]
      | match goal with
        | |- keeps _ (if ?b then _ else _) => destruct b
        | |- keeps _ (match search_payload ?d with _ => _ end) =>
            destruct (search_payload d)
        end ].
Qed.

Ltac spend_free :=
  first [ apply spends_pure; solve [pure_tac]
        | apply spends_resp_json
        | apply spends_cache_set
        | apply spends_console ].

Ltac spend_tac paid :=
  repeat first
    [ spend_free
    | paid
    | match goal with
      | |- spends ?n (bind _ _) =>
          first [ apply (spends_bind 0 n); [solve [spend_free] | intros ?]
                | match n with
                  | S ?n' => apply (spends_bind 1 n'); [solve [paid] | intros ?]
                  end ]
      | |- spends _ (if ?b then _ else _) => destruct b
      | |- spends _ (match ?x with _ => _ end) => destruct x
      end ].

Lemma spends_discover n name now : spends (S n) (discover env name now).
Proof. unfold discover. spend_tac ltac:(apply spends_doFetch). Qed.

Lemma spends_getAssistantBase n name : spends (S n) (getAssistantBase env name).
Proof.
  unfold getAssistantBase.
  apply (spends_bind 0 (S n)); [apply spends_pure, pure_Date_now | intros now].
  apply (spends_bind 0 (S n)); [apply spends_pure, pure_cache_get | intros cached].
  destruct cached as [c|]; [destruct (now <? expiresAt c) |];
    try apply spends_discover.
  apply spends_pure, pure_ret.
Qed.

Lemma spends_resolve_base n host name : spends (S n) (resolve_base env host name).
Proof.
  unfold resolve_base. destruct (JS.truthy host).
  - apply spends_pure, pure_normalize_host.
  - apply spends_getAssistantBase.
Qed.

Lemma spends_describeAssistant n name : spends (S n) (describeAssistant env name).
Proof. unfold describeAssistant. spend_tac ltac:(apply spends_doFetch). Qed.

Lemma spends_listAssistants n : spends (S n) (listAssistants env).
Proof. unfold listAssistants. spend_tac ltac:(apply spends_doFetch). Qed.

Lemma spends_listFiles n base name filter :
  spends (S n) (listFiles env base name filter).
Proof. unfold listFiles. spend_tac ltac:(apply spends_doFetch). Qed.

Lemma spends_deleteFile n base name fileId :
  spends (S n) (deleteFile env base name fileId).
Proof. unfold deleteFile. spend_tac ltac:(apply spends_doFetch). Qed.

Lemma spends_on_error n req e : spends n (on_error env req e).
Proof. unfold on_error. spend_tac ltac:(fail). Qed.

Lemma spends_route req body : spends 2 (route env req body).
Proof.
  unfold route, name_required. cbv zeta.
  destruct (action_of _) as [[]|];
    spend_tac ltac:(first [ apply spends_resolve_base
                          | apply spends_describeAssistant
                          | apply spends_listAssistants
                          | apply spends_listFiles
                          | apply spends_deleteFile
                          | apply spends_doFetch ]).
Qed.

Lemma resolve_base_explicit host name :
  JS.truthy host = true -> resolve_base env host name = normalize_host host.
Proof. intros H. unfold resolve_base. now rewrite H. Qed.

(** With an explicit host the router resolves nothing: one call at most,
    and no cache entry changes. *)
Lemma route_explicit req body :
  JS.truthy (JS.get (JS.or body (JObj [])) "assistant_host") = true ->
  keeps (frame None) (route env req body) /\ spends 1 (route env req body).
Proof.
  intros Hhost. unfold route, name_required. cbv zeta.
  rewrite (resolve_base_explicit _ _ Hhost). split.
  - destruct (action_of _) as [[]|];
      repeat first
        [ apply keeps_describeAssistant
        | apply keeps_listAssistants
        | apply keeps_listFiles
        | apply keeps_deleteFile
        | apply keeps_pure; solve [pure_tac]
        | apply keeps_resp_json
        | apply keeps_doFetch
        | apply keeps_bind; [|intros ?]
        | match goal with
          | |- keeps _ (if ?b then _ else _) => destruct b
          | |- keeps _ (match search_payload ?d with _ => _ end) =>
              destruct (search_payload d)
          end ].
  - destruct (action_of _) as [[]|];
      spend_tac ltac:(first [ apply spends_describeAssistant
                            | apply spends_listAssistants
                            | apply spends_listFiles
                            | apply spends_deleteFile
                            | apply spends_doFetch ]).
Qed.

(** The control-plane actions, the stub and the default case resolve no
    host. *)
Lemma route_control req body :
  match action_of (JS.get (JS.or body (JObj [])) "action") with
  | Some DescribeAssistant | Some ListAssistants | Some Store | None => True
  | _ => False
  end ->
  keeps (frame None) (route env req body) /\ spends 1 (route env req body).
Proof.
  unfold route, name_required. cbv zeta.
  destruct (action_of _) as [[]|]; intros []; split.
  all: try solve
    [ repeat first
        [ apply keeps_describeAssistant
        | apply keeps_listAssistants
        | apply keeps_pure; solve [pure_tac]
        | apply keeps_bind; [|intros ?]
        | match goal with
          | |- keeps _ (if ?b then _ else _) => destruct b
          end ] ].
  all: spend_tac ltac:(first [ apply spends_describeAssistant
                             | apply spends_listAssistants ]).
Qed.

Lemma yields_route req body :
  yields (fun res => res_headers res = cors_headers env req) (route env req body).
Proof.
  unfold route, name_required. cbv zeta.
  destruct (action_of _) as [[]|];
    repeat first
      [ apply yields_ret; reflexivity
      | apply yields_bind; intros ?
      | match goal with
        | |- yields _ (if ?b then _ else _) => destruct b
        | |- yields _ (match ?x with _ => _ end) => destruct x
        end ].
Qed.

Lemma yields_on_error req e :
  yields (fun res => res_headers res = cors_headers env req) (on_error env req e).
Proof. unfold on_error. apply yields_bind. intros _. now apply yields_ret. Qed.

(** Every request of one call through [doFetch] is the request it was
    given. *)
Lemma doFetch_requests req retries w r w' :
  doFetch env req retries w = (r, w') ->
  exists evs, trace w' = evs ++ trace w /\ Forall (fetches (fun q => q = req)) evs.
Proof.
  assert (Hread : forall resp, Forall (fetches (fun q => q = req)) (enrich_events resp)).
  { intros resp. unfold enrich_events. destruct (body_json resp); repeat constructor. }
  revert w r w'. induction retries as [|n IH]; intros w r w';
    rewrite doFetch_unfold;
    destruct (upstream env (length (trace w)) req) as [msg|resp] eqn:Hup.
  - intros [= <- <-]. exists [EvFetch 0 req]. split; [reflexivity |]. now repeat constructor.
  - rewrite settle_eq. destruct (resp_ok resp); intros [= <- <-].
    + exists [EvFetch 0 req]. split; [reflexivity |]. now repeat constructor.
    + rewrite push_push. exists (enrich_events resp ++ [EvFetch 0 req]).
      split; [reflexivity |]. apply Forall_app. split; [apply Hread |].
      now repeat constructor.
  - intros [= <- <-]. exists [EvFetch (S n) req]. split; [reflexivity |].
    now repeat constructor.
  - destruct (status resp =? 429).
    + destruct (retry_delay_pure env resp (S n) (push [EvFetch (S n) req] w))
        as [delay Hd].
      unfold bind at 1. rewrite Hd. unfold bind at 1, sleep, emit. simpl.
      intros H. apply IH in H as (evs & Ht & Hall).
      exists (evs ++ [EvSleep delay; EvFetch (S n) req]). split.
      * rewrite Ht. simpl. now rewrite <- app_assoc.
      * apply Forall_app. split; [exact Hall |]. now repeat constructor.
    + rewrite settle_eq. destruct (resp_ok resp); intros [= <- <-].
      * exists [EvFetch (S n) req]. split; [reflexivity |]. now repeat constructor.
      * rewrite push_push. exists (enrich_events resp ++ [EvFetch (S n) req]).
        split; [reflexivity |]. apply Forall_app. split; [apply Hread |].
        now repeat constructor.
Qed.

Lemma sends_doFetch (P : Request -> Prop) req retries :
  P req -> sends P (doFetch env req retries).
Proof.
  intros HP w r w' (evs & Ht & Hall)%doFetch_requests. exists evs.
  split; [exact Ht |]. eapply Forall_impl; [exact Hall |].
  intros [k q| | | |]; simpl; try tauto. now intros ->.
Qed.

Lemma sends_resp_json P resp : sends P (resp_json resp).
Proof.
  intros w r w'. rewrite resp_json_eq.
  destruct (body_json resp); intros [= _ <-]; exists [EvReadJson resp];
    (split; [reflexivity | now repeat constructor]).
Qed.

Lemma sends_on_error P req e : sends P (on_error env req e).
Proof.
  intros w r w' [= _ <-]. exists [EvConsoleError e].
  split; [reflexivity | now repeat constructor].
Qed.

Lemma yields_encode v :
  yields (fun n => exists s, JS.to_string v = Some s /\ n = JS.encodeURIComponent s)
    (encode v).
Proof.
  intros w n w'. unfold encode, bind, of_option, ret, unmodelled.
  destruct (JS.to_string v) as [s|]; [|discriminate].
  intros [= <- _]. now exists s.
Qed.

(** The control-plane actions send nothing but the two requests of the
    control plane. *)
Lemma route_control_requests req body :
  match action_of (JS.get (JS.or body (JObj [])) "action") with
  | Some DescribeAssistant | Some ListAssistants => True
  | _ => False
  end ->
  sends (control_plane_request (get_headers env) (requested_name body))
    (route env req body).
Proof.
  unfold route, name_required, requested_name. cbv zeta.
  destruct (action_of _) as [[]|]; intros []; [destruct (negb _) |];
    try (apply sends_pure, pure_ret).
  - eapply sends_bind; [|apply yields_any | intros; apply sends_pure, pure_ret].
    unfold describeAssistant.
    eapply sends_bind; [apply sends_pure, pure_encode | apply yields_encode |].
    intros n (s & Hs & ->).
    eapply sends_bind; [|apply yields_any | intros; apply sends_resp_json].
    apply sends_doFetch. right. now exists s.
  - eapply sends_bind; [|apply yields_any | intros; apply sends_pure, pure_ret].
    unfold listAssistants.
    eapply sends_bind; [|apply yields_any | intros; apply sends_resp_json].
    apply sends_doFetch. now left.
Qed.

Lemma handler_cases req :
  (exists res, handler env req = ret res /\ res_headers res = cors_headers env req) \/
  handler env req = unmodelled \/
  (exists b, parsed_body req = Some b /\
             handler env req = try_catch (route env req b) (on_error env req)).
Proof.
  unfold handler, parsed_body.
  destruct (Str.eqb (method req) "OPTIONS"); [left; eauto |].
  destruct (negb (Str.eqb (method req) "POST")); [left; eexists; split; reflexivity |].
  destruct (unauthorized env req); [left; eexists; split; reflexivity |].
  destruct (body req) as [t [v|]|v].
  - right. right. eauto.
  - left. eexists. split; reflexivity.
  - destruct v;
      first [ right; left; reflexivity
            | right; right; eexists; split; reflexivity ].
Qed.

End ProgramJudgements.

(** X6. The handler never lets an error escape: whatever is thrown while an
    action runs is caught and answered, so a run ends with a response (or
    outside the model), never with an exception. *)
Theorem handler_never_throws env req w e w' :
  handler env req w <> (Throw e, w').
Proof.
  destruct (handler_cases env req) as [(res & -> & _)|[->|(b & _ & ->)]];
    try discriminate.
  unfold try_catch. destruct (route env req b w) as [[res|e1|] w1]; discriminate.
Qed.

(** X7. Every response of the handler, the error envelopes included,
    carries the four CORS headers computed from the request. *)
Theorem handler_answers_with_cors_headers env req w res w' :
  handler env req w = (Ok res, w') ->
  res_headers res = cors_headers env req.
Proof.
  destruct (handler_cases env req) as [(res0 & -> & H)|[->|(b & _ & ->)]].
  - now intros [= <- _].
  - discriminate.
  - apply (yields_try (fun res => res_headers res = cors_headers env req)).
    + apply yields_route.
    + apply yields_on_error.
Qed.

Lemma handler_cors_headers_witness :
  exists res w',
    handler (Example.platform Example.busy)
      (mkReq "GET" (Some "https://evil.example") None (ParsedBody JNull))
      Example.idle = (Ok res, w') /\
    res_status res = 405 /\
    res_headers res
    = [("Vary", "Origin"); ("Access-Control-Allow-Origin", "https://chatgpt.com");
       ("Access-Control-Allow-Methods", "POST, OPTIONS");
       ("Access-Control-Allow-Headers", "Content-Type, Authorization")].
Proof.
  eexists _, _. split; [reflexivity |]. split; [reflexivity |].
  exact (handler_answers_with_cors_headers (Example.platform Example.busy)
           (mkReq "GET" (Some "https://evil.example") None (ParsedBody JNull))
           Example.idle _ _ eq_refl).
Defined.

(** X8. One inbound request makes at most two calls through [doFetch]
    (host discovery and the action), hence at most six HTTP attempts. *)
Theorem handler_makes_at_most_two_calls env req w r w' :
  handler env req w = (r, w') ->
  (calls (trace w') <= calls (trace w) + 2)%nat /\
  (attempts (trace w') <= attempts (trace w) + 6)%nat.
Proof.
  destruct (handler_cases env req) as [(res0 & -> & H)|[->|(b & _ & ->)]].
  - intros [= _ <-]. lia.
  - intros [= _ <-]. lia.
  - apply (spends_try 2); [apply spends_route | intros; apply spends_on_error].
Qed.

Lemma handler_two_calls_witness :
  exists r w',
    handler (Example.platform (Example.serving 200 None))
      (Example.post (JObj [("action", JStr "chat"); ("assistant_name", JStr "demo");
                              ("data", JObj [("message", JStr "hello")])]))
      Example.idle = (r, w') /\
    calls (trace w') = 2%nat /\
    (calls (trace w') <= calls (trace Example.idle) + 2)%nat.
Proof.
  eexists _, _. split; [reflexivity |]. split; [reflexivity |].
  exact (proj1 (handler_makes_at_most_two_calls
                  (Example.platform (Example.serving 200 None))
                  (Example.post (JObj [("action", JStr "chat"); ("assistant_name", JStr "demo");
                              ("data", JObj [("message", JStr "hello")])]))
                  Example.idle _ _ eq_refl)).
Defined.

(** X9. A request only adds events to the trace, and changes no cache
    entry other than that of the assistant it names. *)
Theorem handler_touches_only_its_cache_entry env req w r w' :
  handler env req w = (r, w') ->
  (exists evs, trace w' = evs ++ trace w) /\
  forall k,
    (forall b, parsed_body req = Some b -> Some k <> cache_key (requested_name b)) ->
    hostCache w' !! k = hostCache w !! k.
Proof.
  destruct (handler_cases env req) as [(res0 & -> & H)|[->|(b & Hb & ->)]].
  - intros [= _ <-]. split; [now exists [] | reflexivity].
  - intros [= _ <-]. split; [now exists [] | reflexivity].
  - intros Hrun.
    destruct (keeps_try (cache_key (requested_name b)) _ _
                (keeps_route env req b)
                (fun e => keeps_on_error env _ req e) _ _ _ Hrun)
      as (He & Hk).
    split; [exact He |].
    intros k Hne. apply Hk. exact (Hne b Hb).
Qed.

Lemma handler_cache_entry_witness :
  exists r w',
    handler (Example.platform (Example.serving 200 None))
      (Example.post (JObj [("action", JStr "chat"); ("assistant_name", JStr "demo");
                              ("data", JObj [("message", JStr "hello")])]))
      (mkWorld 1000 (<[KStr "other" := mkEntry "https://other.example/assistant" 5000]> ∅) [])
    = (r, w') /\
    hostCache w' !! KStr "other" = Some (mkEntry "https://other.example/assistant" 5000).
Proof.
  eexists _, _. split; [reflexivity |].
  refine (eq_trans
            (proj2 (handler_touches_only_its_cache_entry
                             (Example.platform (Example.serving 200 None))
                             (Example.post (JObj [("action", JStr "chat"); ("assistant_name", JStr "demo");
                              ("data", JObj [("message", JStr "hello")])]))
                             (mkWorld 1000
                                (<[KStr "other" := mkEntry "https://other.example/assistant" 5000]> ∅)
                                [])
                             _ _ eq_refl) (KStr "other") _)
            _).
  - intros b [= <-]. discriminate.
  - reflexivity.
Defined.

(** X10. A request that brings its own [assistant_host] resolves nothing:
    the host cache is neither read into the result nor written, and at
    most one upstream call (the action itself) is made. *)
Theorem explicit_host_bypasses_the_cache env req b w r w' :
  parsed_body req = Some b ->
  JS.truthy (JS.get (JS.or b (JObj [])) "assistant_host") = true ->
  handler env req w = (r, w') ->
  hostCache w' = hostCache w /\
  (calls (trace w') <= calls (trace w) + 1)%nat.
Proof.
  intros Hb Hhost.
  destruct (handler_cases env req) as [(res0 & -> & H)|[->|(b' & Hb' & ->)]].
  - intros [= _ <-]. split; [reflexivity | lia].
  - intros [= _ <-]. split; [reflexivity | lia].
  - assert (b' = b) as -> by congruence.
    destruct (route_explicit env req b Hhost) as [Hkeep Hspend].
    intros Hrun. split.
    + destruct (keeps_try None _ _ Hkeep (fun e => keeps_on_error env _ req e)
                  _ _ _ Hrun) as (_ & Hk).
      apply map_eq. intros k. now apply Hk.
    + exact (proj1 (spends_try 1 _ _ Hspend
                      (fun e => spends_on_error env 0 req e) _ _ _ Hrun)).
Qed.

Lemma explicit_host_witness :
  exists r w',
    handler (Example.platform (Example.serving 200 None))
      (Example.post (JObj [("action", JStr "chat"); ("assistant_name", JStr "demo");
                              ("assistant_host", JStr "demo-abc.svc.pinecone.io");
                              ("data", JObj [("message", JStr "hello")])]))
      Example.idle = (r, w') /\
    hostCache w' = hostCache Example.idle /\
    (calls (trace w') <= 1)%nat.
Proof.
  eexists _, _. split; [reflexivity |].
  exact (explicit_host_bypasses_the_cache
           (Example.platform (Example.serving 200 None))
           (Example.post (JObj [("action", JStr "chat"); ("assistant_name", JStr "demo");
                              ("assistant_host", JStr "demo-abc.svc.pinecone.io");
                              ("data", JObj [("message", JStr "hello")])]))
           (JObj [("action", JStr "chat"); ("assistant_name", JStr "demo");
                 ("assistant_host", JStr "demo-abc.svc.pinecone.io");
                 ("data", JObj [("message", JStr "hello")])])
           Example.idle _ _ eq_refl eq_refl eq_refl).
Defined.

(** X11. The control-plane actions go to the control plane and nowhere
    else: every request a describeAssistant or listAssistants action
    sends is the GET of the assistant list, or the GET of the description
    of the assistant the body names, with the API key and version
    headers and no body, whatever host the body gives.  The host cache
    is left as it was and at most one call is made. *)
Theorem control_plane_skips_the_cache env req b w r w' :
  parsed_body req = Some b ->
  (action_of (JS.get (JS.or b (JObj [])) "action") = Some DescribeAssistant \/
   action_of (JS.get (JS.or b (JObj [])) "action") = Some ListAssistants) ->
  handler env req w = (r, w') ->
  hostCache w' = hostCache w /\
  (calls (trace w') <= calls (trace w) + 1)%nat /\
  exists evs,
    trace w' = evs ++ trace w /\
    forall k q,
      In (EvFetch k q) evs ->
      q = mkRequest "GET" assistants_url (get_headers env) None \/
      exists s,
        JS.to_string (requested_name b) = Some s /\
        q = mkRequest "GET" (assistants_url +:+ "/" +:+ JS.encodeURIComponent s)
              (get_headers env) None.
Proof.
  intros Hb Hact.
  destruct (handler_cases env req) as [(res0 & -> & H)|[->|(b' & Hb' & ->)]].
  - intros [= _ <-]. split; [reflexivity |]. split; [lia |]. now exists [].
  - intros [= _ <-]. split; [reflexivity |]. split; [lia |]. now exists [].
  - assert (b' = b) as -> by congruence.
    destruct (route_control env req b) as [Hkeep Hspend];
      [destruct Hact as [-> | ->]; exact I |].
    intros Hrun. split; [|split].
    + destruct (keeps_try None _ _ Hkeep (fun e => keeps_on_error env _ req e)
                  _ _ _ Hrun) as (_ & Hk).
      apply map_eq. intros k. now apply Hk.
    + exact (proj1 (spends_try 1 _ _ Hspend
                      (fun e => spends_on_error env 0 req e) _ _ _ Hrun)).
    + destruct (sends_try _ _ _
                  (route_control_requests env req b
                     ltac:(destruct Hact as [-> | ->]; exact I))
                  (fun e => sends_on_error env _ req e) _ _ _ Hrun)
        as (evs & Ht & Hall).
      exists evs. split; [exact Ht |]. intros k q Hin.
      rewrite Forall_forall in Hall. apply list_elem_of_In in Hin.
      exact (Hall _ Hin).
Qed.

Lemma control_plane_witness :
  exists r w',
    handler (Example.platform (Example.serving 200 None))
      (Example.post (JObj [("action", JStr "describeAssistant");
                           ("assistant_name", JStr "demo");
                           ("assistant_host", JStr "elsewhere.example")]))
      Example.idle = (r, w') /\
    hostCache w' = hostCache Example.idle /\
    trace w'
    = [EvReadJson (mkResponse 200 "OK"
                     "https://api.pinecone.io/assistant/assistants/demo" None
                     (Some (JObj [("host", JStr "demo-abc.svc.pinecone.io")])) None);
       EvFetch 2 (mkRequest "GET" "https://api.pinecone.io/assistant/assistants/demo"
                    [("Api-Key", "pc-key"); ("X-Pinecone-API-Version", "2025-04")]
                    None)].
Proof.
  eexists _, _. split; [reflexivity |]. split; [|reflexivity].
  exact (proj1 (control_plane_skips_the_cache
                  (Example.platform (Example.serving 200 None))
                  (Example.post (JObj [("action", JStr "describeAssistant");
                                       ("assistant_name", JStr "demo");
                                       ("assistant_host", JStr "elsewhere.example")]))
                  (JObj [("action", JStr "describeAssistant");
                         ("assistant_name", JStr "demo");
                         ("assistant_host", JStr "elsewhere.example")])
                  Example.idle _ _ eq_refl (or_introl eq_refl) eq_refl)).
Defined.

(** ** Validation and payloads *)

(** X12. A request that is not an authorised POST never reaches the
    router: it is answered 200 without a body (OPTIONS), 405 (any other
    method) or 401 (POST without the configured bearer token), and the
    world stays as it was: no upstream call, no cache access. *)
Theorem handler_gate env req w :
  method req <> "POST" \/ unauthorized env req = true ->
  exists res,
    handler env req w = (Ok res, w) /\
    res = (if Str.eqb (method req) "OPTIONS" then mkRes 200 (cors_headers env req) None
           else if Str.eqb (method req) "POST"
                then answer env req 401 (failure "Unauthorized")
                else answer env req 405 (failure "Method not allowed")).
Proof.
  intros Hgate. unfold handler.
  destruct (Str.eqb (method req) "OPTIONS") eqn:Hopt; [eauto |].
  destruct (Str.eqb (method req) "POST") eqn:Hpost; simpl; [|eauto].
  destruct Hgate as [Hm|Hu].
  - apply String.eqb_eq in Hpost. contradiction.
  - rewrite Hu. eauto.
Qed.

Lemma handler_gate_witness :
  exists res,
    handler (mkEnv (Some "pc-key") None None (Some "s3cret") Example.busy (fun _ => 0))
      (mkReq "POST" None (Some "Bearer wrong") (ParsedBody (JObj [("action", JStr "listAssistants")])))
      Example.idle
    = (Ok res, Example.idle) /\
    res_status res = 401.
Proof.
  destruct (handler_gate
              (mkEnv (Some "pc-key") None None (Some "s3cret") Example.busy (fun _ => 0))
              (mkReq "POST" None (Some "Bearer wrong")
                 (ParsedBody (JObj [("action", JStr "listAssistants")])))
              Example.idle (or_intror eq_refl)) as (res & Hrun & ->).
  eexists. split; [exact Hrun | reflexivity].
Defined.

(** X13. The list of supported actions that the "Invalid action" answer
    advertises is exactly the set of labels the [switch] has a case for. *)
Theorem supported_actions_are_the_cases s :
  In s supported_actions <-> exists a, action_of (JStr s) = Some a.
Proof.
  split.
  - simpl. intros [<-|[<-|[<-|[<-|[<-|[<-|[<-|[]]]]]]]]; eexists; reflexivity.
  - intros [a Ha]. unfold action_of in Ha. apply List.find_some in Ha as [_ Heq].
    apply String.eqb_eq in Heq as ->. destruct a; simpl; tauto.
Qed.

(** X14. An authorised POST whose body names no supported action (a wrong
    or missing [action], or a body that is not an object) is answered 400
    "Invalid action" with the list of supported actions, before any
    upstream call. *)
Theorem unknown_action_is_rejected env req b w :
  method req = "POST" -> unauthorized env req = false ->
  parsed_body req = Some b ->
  action_of (JS.get (JS.or b (JObj [])) "action") = None ->
  handler env req w
  = (Ok (answer env req 400
           (JObj [("success", JBool false); ("error", JStr "Invalid action");
                  ("supported_actions",
                   JArr [JStr "chat"; JStr "search"; JStr "describeAssistant";
                         JStr "listAssistants"; JStr "listFiles";
                         JStr "deleteFile"; JStr "store"])])),
     w).
Proof.
  intros Hm Ha Hb Hact. rewrite (handler_post env req b w Hm Ha Hb).
  unfold try_catch, route. now rewrite Hact.
Qed.

Lemma unknown_action_witness :
  exists res,
    handler (Example.platform Example.busy)
      (Example.post (JObj [("action", JStr "Chat"); ("assistant_name", JStr "demo")]))
      Example.idle
    = (Ok res, Example.idle) /\ res_status res = 400.
Proof.
  eexists. split.
  - exact (unknown_action_is_rejected (Example.platform Example.busy)
             (Example.post (JObj [("action", JStr "Chat"); ("assistant_name", JStr "demo")]))
             (JObj [("action", JStr "Chat"); ("assistant_name", JStr "demo")])
             Example.idle eq_refl eq_refl eq_refl eq_refl).
  - reflexivity.
Defined.

(** X15. A deleteFile request that names an assistant but carries no truthy
    [data.file_id] is answered 400 "file_id is required" with the world
    untouched: the check comes before the host is resolved. *)
Theorem deleteFile_requires_file_id env req b w :
  method req = "POST" -> unauthorized env req = false ->
  parsed_body req = Some b ->
  JS.get (JS.or b (JObj [])) "action" = JStr "deleteFile" ->
  JS.truthy (requested_name b) = true ->
  JS.truthy (JS.get_opt (JS.default (JS.get (JS.or b (JObj [])) "data") (JObj []))
               "file_id") = false ->
  handler env req w
  = (Ok (answer env req 400 (failure "file_id is required")), w).
Proof.
  intros Hm Ha Hb Hact Hname Hfile. rewrite (handler_post env req b w Hm Ha Hb).
  unfold try_catch, route. cbv zeta. rewrite Hact.
  change (action_of (JStr "deleteFile")) with (Some DeleteFile). cbv iota.
  unfold requested_name in Hname. rewrite Hname, Hfile. reflexivity.
Qed.

Lemma deleteFile_requires_file_id_witness :
  handler (Example.platform Example.busy)
    (Example.post (JObj [("action", JStr "deleteFile");
                         ("assistant_name", JStr "demo");
                         ("data", JObj [("file_id", JStr "")])]))
    Example.idle
  = (Ok (answer (Example.platform Example.busy)
           (Example.post (JObj [("action", JStr "deleteFile");
                                ("assistant_name", JStr "demo");
                                ("data", JObj [("file_id", JStr "")])]))
           400 (failure "file_id is required")),
     Example.idle).
Proof.
  exact (deleteFile_requires_file_id (Example.platform Example.busy)
           (Example.post (JObj [("action", JStr "deleteFile");
                                ("assistant_name", JStr "demo");
                                ("data", JObj [("file_id", JStr "")])]))
           (JObj [("action", JStr "deleteFile");
                  ("assistant_name", JStr "demo");
                  ("data", JObj [("file_id", JStr "")])])
           Example.idle eq_refl eq_refl eq_refl eq_refl eq_refl eq_refl).
Defined.

(** X16. In a chat payload the user's message comes last: with a truthy
    message and a context that is absent or an array, the messages are the
    truthy entries of the context in order, followed by the one turn
    [{role: "user", content: message}]; with no context they are that turn
    alone. *)
Theorem chat_message_is_the_last_turn data items w :
  JS.truthy (JS.get (JS.or data (JObj [])) "message") = true ->
  JS.default (JS.get (JS.or data (JObj [])) "context") (JArr []) = JArr items ->
  exists payload,
    chat_payload data w = (Ok payload, w) /\
    JS.get payload "messages"
    = JArr (List.filter JS.truthy items
            ++ [JObj [("role", JStr "user");
                      ("content", JS.get (JS.or data (JObj [])) "message")]]) /\
    (items = [] ->
     JS.get payload "messages"
     = JArr [JObj [("role", JStr "user");
                   ("content", JS.get (JS.or data (JObj [])) "message")]]).
Proof.
  intros Hmsg Hctx. eexists. split.
  - unfold chat_payload. cbv zeta. rewrite Hctx, Hmsg.
    unfold spread, bind, ret. reflexivity.
  - assert (Hf : List.filter JS.truthy
                   (items ++ [JObj [("role", JStr "user");
                                    ("content", JS.get (JS.or data (JObj [])) "message")]])
                 = List.filter JS.truthy items
                   ++ [JObj [("role", JStr "user");
                             ("content", JS.get (JS.or data (JObj [])) "message")]])
      by now rewrite List.filter_app.
    split; [rewrite <- Hf; reflexivity | intros ->; reflexivity].
Qed.

Lemma chat_message_witness :
  exists payload,
    chat_payload (JObj [("message", JStr "hello")]) Example.idle
    = (Ok payload, Example.idle) /\
    JS.get payload "messages"
    = JArr [JObj [("role", JStr "user"); ("content", JStr "hello")]].
Proof.
  destruct (chat_message_is_the_last_turn (JObj [("message", JStr "hello")]) []
              Example.idle eq_refl eq_refl) as (payload & Hrun & _ & Hone).
  exists payload. split; [exact Hrun | exact (Hone eq_refl)].
Defined.

(** X17. [messages] wins over [query]: when [messages] is a non-empty array
    the search payload carries it and has no [query] field, whatever
    [query] is. *)
Theorem search_prefers_messages data m ms :
  JS.get (JS.or data (JObj [])) "messages" = JArr (m :: ms) ->
  exists payload,
    search_payload data = Some payload /\
    JS.get payload "messages" = JArr (m :: ms) /\
    JS.get payload "query" = JUndefined.
Proof.
  intros Hm. unfold search_payload. cbv zeta. rewrite Hm.
  eexists. split; [reflexivity |]. split; [reflexivity |].
  simpl. unfold field_if.
  destruct (JS.truthy (JS.get _ "filter")), (JS.isFinite _),
    (JS.truthy (JS.get _ "context_options")); reflexivity.
Qed.

Lemma search_prefers_messages_witness :
  exists payload,
    search_payload (JObj [("query", JStr "q"); ("messages", JArr [JStr "m"])])
    = Some payload /\
    JS.get payload "messages" = JArr [JStr "m"] /\
    JS.get payload "query" = JUndefined.
Proof.
  exact (search_prefers_messages
           (JObj [("query", JStr "q"); ("messages", JArr [JStr "m"])])
           (JStr "m") [] eq_refl).
Defined.

(** ** The resolver and the cache *)

(** What a resolution may do to the cache: nothing, or write the entry
    for the name with the base it returns and the expiry [now + TTL]. *)
Lemma discover_cache env name now w r w' :
  discover env name now w = (r, w') ->
  clock w' = clock w /\
  match r with
  | Ok base =>
      hostCache w'
      = match cache_key name with
        | Some k => <[k := mkEntry base (now + HOST_CACHE_TTL_MS)]> (hostCache w)
        | None => hostCache w
        end
  | _ => hostCache w' = hostCache w
  end.
Proof.
  unfold discover. unfold bind at 1.
  destruct (encode name w) as [[s| |] w0] eqn:Hs;
    pose proof (pure_encode _ _ _ _ Hs) as ->;
    try (now intros [= <- <-]).
  unfold bind at 1.
  destruct (doFetch env _ 2 w) as [[resp|e|] w1] eqn:Hf;
    destruct (doFetch_counts _ _ _ _ _ Hf) as (Hclock & Hcache & _);
    try (now intros [= <- <-]).
  unfold bind at 1. rewrite resp_json_eq.
  destruct (body_json resp) as [data|]; [|now intros [= <- <-]].
  unfold bind at 1, get_prop.
  destruct (JS.nullish data); [now intros [= <- <-] |].
  unfold ret at 1.
  destruct (negb (JS.truthy (JS.get data "host"))); [now intros [= <- <-] |].
  destruct (JS.get data "host") as [| | | |h| | |]; try (now intros [= <- <-]).
  unfold bind at 1.
  destruct (normalizeAssistantBase _) as [base|]; simpl; [|now intros [= <- <-]].
  intros [= <- <-]. unfold cache_set. simpl.
  destruct (cache_key name); simpl; now rewrite Hclock, Hcache.
Qed.



(** X19. After a resolution that returns [base] for a string name, the
    cache holds an entry for that name whose host is [base] and which
    expires later than the time the resolution read when it began,
    whether the base came from the cache or from discovery. *)
Theorem resolved_base_is_cached env (name : string) w base w' :
  getAssistantBase env (JStr name) w = (Ok base, w') ->
  exists entry,
    hostCache w' !! KStr name = Some entry /\
    host entry = base /\
    clock w < expiresAt entry.
Proof.
  unfold getAssistantBase, bind, Date_now, cache_get, ret. simpl.
  assert (Hd : discover env (JStr name) (clock w) w = (Ok base, w') ->
               exists entry,
                 hostCache w' !! KStr name = Some entry /\
                 host entry = base /\ clock w < expiresAt entry).
  { intros (_ & Hcache)%discover_cache. simpl in Hcache.
    exists (mkEntry base (clock w + HOST_CACHE_TTL_MS)).
    rewrite Hcache. split; [apply lookup_insert_eq |].
    split; [reflexivity |]. simpl. unfold HOST_CACHE_TTL_MS. lia. }
  destruct (hostCache w !! KStr name) as [c|] eqn:Hc; [|exact Hd].
  destruct (clock w <? expiresAt c) eqn:Hlt; [|exact Hd].
  intros [= <- <-]. exists c. repeat split; [exact Hc |]. now apply Z.ltb_lt.
Qed.

Lemma resolved_base_witness :
  exists entry,
    hostCache (snd (getAssistantBase (Example.platform (Example.serving 200 None))
                      (JStr "demo") Example.idle)) !! KStr "demo" = Some entry /\
    host entry = Example.base.
Proof.
  destruct (resolved_base_is_cached (Example.platform (Example.serving 200 None))
              "demo" Example.idle Example.base
              (snd (getAssistantBase (Example.platform (Example.serving 200 None))
                      (JStr "demo") Example.idle))
              eq_refl) as (entry & Hentry & Hhost & _).
  exists entry. split; [exact Hentry | exact Hhost].
Defined.

(** ** The answer headers and the error envelope *)

Lemma split_head sep s : exists w ws, Str.split sep s = w :: ws.
Proof.
  induction s as [|c s (w & ws & IH)]; simpl; [eauto |].
  rewrite IH. destruct (Ascii.eqb c sep); eauto.
Qed.

Lemma existsb_eqb_In o l : existsb (Str.eqb o) l = true <-> In o l.
Proof.
  rewrite existsb_exists. split.
  - intros (x & Hin & Heq). apply String.eqb_eq in Heq. now subst.
  - intros Hin. exists o. split; [exact Hin | apply String.eqb_refl].
Qed.

(** X20. The [Access-Control-Allow-Origin] header never echoes an origin
    that is not on the allow list: its value is the request's origin when
    that is listed, and otherwise the first entry of the list, or [*]
    when that entry is empty. *)
Theorem allow_origin_is_listed env req :
  exists v,
    cors_headers env req
    = [("Vary", "Origin"); ("Access-Control-Allow-Origin", v);
       ("Access-Control-Allow-Methods", "POST, OPTIONS");
       ("Access-Control-Allow-Headers", "Content-Type, Authorization")] /\
    (In v (Str.split "," (string_or (ALLOWED_ORIGINS env) "https://chatgpt.com"))
     \/ v = "*") /\
    (forall o,
        origin req = Some o ->
        In o (Str.split "," (string_or (ALLOWED_ORIGINS env) "https://chatgpt.com")) ->
        v = o).
Proof.
  unfold cors_headers. cbv zeta.
  set (allowed := Str.split "," (string_or (ALLOWED_ORIGINS env) "https://chatgpt.com")).
  assert (Hfirst : In (string_or (head allowed) "*") allowed
                   \/ string_or (head allowed) "*" = "*").
  { destruct (split_head "," (string_or (ALLOWED_ORIGINS env) "https://chatgpt.com"))
      as (w0 & ws & E). fold allowed in E. rewrite E. simpl.
    destruct (Str.eqb w0 ""); auto. }
  eexists. split; [reflexivity |]. split.
  - destruct (origin req) as [o|]; [|exact Hfirst].
    destruct (existsb (Str.eqb o) allowed) eqn:E; [|exact Hfirst].
    left. now apply existsb_eqb_In.
  - intros o -> Hin. apply existsb_eqb_In in Hin. now rewrite Hin.
Qed.

(** X21. An upstream answer that is neither 2xx nor 429 reaches the client
    with its own status: listAssistants answers with the status of the
    control plane, the message [Request failed: <status> <statusText>],
    and the URL and body of the upstream answer as details, after one
    attempt and one line on the console. *)
Theorem upstream_status_is_passed_through env req b w resp :
  method req = "POST" -> unauthorized env req = false ->
  parsed_body req = Some b ->
  JS.get (JS.or b (JObj [])) "action" = JStr "listAssistants" ->
  upstream env (length (trace w))
    (mkRequest "GET" assistants_url (get_headers env) None) = Reply resp ->
  status resp <> 429 -> ~ (200 <= status resp <= 299) ->
  handler env req w
  = (Ok (answer env req (status resp)
           (JObj [("success", JBool false);
                  ("error", JStr ("Request failed: " +:+ Str.of_Z (status resp)
                                  +:+ " " +:+ statusText resp));
                  ("details", JObj [("url", JStr (url resp));
                                    ("body", enrich_details resp)])])),
     push (EvConsoleError (upstream_error resp)
           :: enrich_events resp
           ++ [EvFetch 2 (mkRequest "GET" assistants_url (get_headers env) None)]) w).
Proof.
  intros Hm Ha Hb Hact Hup H429 Hbad. rewrite (handler_post env req b w Hm Ha Hb).
  unfold try_catch, route. cbv zeta. rewrite Hact.
  change (action_of (JStr "listAssistants")) with (Some ListAssistants). cbv iota.
  unfold listAssistants. unfold bind at 1. unfold bind at 1.
  rewrite (doFetch_settles env _ 2 w resp Hup H429).
  assert (Hok : resp_ok resp = false).
  { unfold resp_ok. destruct (Z.leb_spec 200 (status resp)); [|reflexivity].
    destruct (Z.leb_spec (status resp) 299); [lia | reflexivity]. }
  rewrite Hok. reflexivity.
Qed.

Lemma upstream_status_witness :
  exists res w',
    handler (Example.platform (Sample.failing 404))
      (Example.post (JObj [("action", JStr "listAssistants")]))
      Example.idle = (Ok res, w') /\
    res_status res = 404 /\
    attempts (trace w') = 1%nat.
Proof.
  eexists _, _. split.
  - refine (upstream_status_is_passed_through (Example.platform (Sample.failing 404))
              (Example.post (JObj [("action", JStr "listAssistants")]))
              (JObj [("action", JStr "listAssistants")])
              Example.idle
              (mkResponse 404 "Not Found" assistants_url None None None)
              eq_refl eq_refl eq_refl eq_refl eq_refl _ _).
    + discriminate.
    + simpl. lia.
  - split; reflexivity.
Defined.

(** X22. A rejected [fetch] is not retried and is answered 500 with the
    message of the rejection. *)
Theorem network_failure_is_answered_500 env req b w msg :
  method req = "POST" -> unauthorized env req = false ->
  parsed_body req = Some b ->
  JS.get (JS.or b (JObj [])) "action" = JStr "listAssistants" ->
  upstream env (length (trace w))
    (mkRequest "GET" assistants_url (get_headers env) None) = NetworkError msg ->
  handler env req w
  = (Ok (answer env req 500
           (JObj [("success", JBool false);
                  ("error", JStr (if Str.eqb msg "" then "TypeError" else msg));
                  ("details", JUndefined)])),
     push [EvConsoleError (NativeError "TypeError" msg);
           EvFetch 2 (mkRequest "GET" assistants_url (get_headers env) None)] w).
Proof.
  intros Hm Ha Hb Hact Hup. rewrite (handler_post env req b w Hm Ha Hb).
  unfold try_catch, route. cbv zeta. rewrite Hact.
  change (action_of (JStr "listAssistants")) with (Some ListAssistants). cbv iota.
  unfold listAssistants. unfold bind at 1. unfold bind at 1.
  rewrite (doFetch_offline env _ 2 w msg Hup). reflexivity.
Qed.

Lemma network_failure_witness :
  exists res w',
    handler (Example.platform Sample.offline)
      (Example.post (JObj [("action", JStr "listAssistants")]))
      Example.idle = (Ok res, w') /\
    res_status res = 500 /\
    attempts (trace w') = 1%nat.
Proof.
  eexists _, _. split.
  - exact (network_failure_is_answered_500 (Example.platform Sample.offline)
             (Example.post (JObj [("action", JStr "listAssistants")]))
             (JObj [("action", JStr "listAssistants")])
             Example.idle "fetch failed" eq_refl eq_refl eq_refl eq_refl eq_refl).
  - split; reflexivity.
Defined.

(** X23. A search request with neither a truthy [query] nor [messages] of
    truthy length is answered 400, but only after the host was resolved:
    the world is the one the resolution left, and no search call is
    made. *)
Theorem search_without_payload_is_400 env req b w base w1 :
  method req = "POST" -> unauthorized env req = false ->
  parsed_body req = Some b ->
  JS.get (JS.or b (JObj [])) "action" = JStr "search" ->
  JS.truthy (requested_name b) = true ->
  resolve_base env (JS.get (JS.or b (JObj [])) "assistant_host") (requested_name b) w
  = (Ok base, w1) ->
  JS.truthy
    (JS.get_opt
       (JS.get (JS.or (JS.default (JS.get (JS.or b (JObj [])) "data") (JObj []))
                  (JObj [])) "messages") "length") = false ->
  JS.truthy
    (JS.get (JS.or (JS.default (JS.get (JS.or b (JObj [])) "data") (JObj []))
               (JObj [])) "query") = false ->
  handler env req w
  = (Ok (answer env req 400 (failure "search: provide 'query' or 'messages'")), w1).
Proof.
  intros Hm Ha Hb Hact Hname Hbase Hmsgs Hquery.
  rewrite (handler_post env req b w Hm Ha Hb).
  unfold try_catch, route. cbv zeta. rewrite Hact.
  change (action_of (JStr "search")) with (Some Search). cbv iota.
  unfold requested_name in Hname, Hbase. rewrite Hname.
  change (negb true) with false. cbv iota.
  rewrite (bind_ok _ _ _ _ _ Hbase).
  unfold search_payload. cbv zeta. rewrite Hmsgs, Hquery. reflexivity.
Qed.

Lemma search_without_payload_witness :
  exists res,
    handler (Example.platform Example.busy)
      (Example.post (JObj [("action", JStr "search"); ("assistant_name", JStr "demo");
                              ("assistant_host", JStr "demo-abc.svc.pinecone.io");
                              ("data", JObj [("query", JStr "")])]))
      Example.idle = (Ok res, Example.idle) /\
    res_status res = 400.
Proof.
  eexists. split.
  - exact (search_without_payload_is_400 (Example.platform Example.busy)
             (Example.post (JObj [("action", JStr "search"); ("assistant_name", JStr "demo");
                              ("assistant_host", JStr "demo-abc.svc.pinecone.io");
                              ("data", JObj [("query", JStr "")])]))
             (JObj [("action", JStr "search"); ("assistant_name", JStr "demo");
                 ("assistant_host", JStr "demo-abc.svc.pinecone.io");
                 ("data", JObj [("query", JStr "")])])
             Example.idle Example.base Example.idle
             eq_refl eq_refl eq_refl eq_refl eq_refl eq_refl eq_refl eq_refl).
  - reflexivity.
Defined.

(** X24. A chat request whose [context] is given but is neither an array nor
    a string (null, a number, a boolean, an object) fails in the spread of
    line 83: the client gets 500 once the host is resolved, and no chat
    call is made. *)
Theorem chat_context_must_be_iterable env req b w base w1 :
  method req = "POST" -> unauthorized env req = false ->
  parsed_body req = Some b ->
  JS.get (JS.or b (JObj [])) "action" = JStr "chat" ->
  JS.truthy (requested_name b) = true ->
  resolve_base env (JS.get (JS.or b (JObj [])) "assistant_host") (requested_name b) w
  = (Ok base, w1) ->
  match JS.get (JS.or (JS.default (JS.get (JS.or b (JObj [])) "data") (JObj []))
                  (JObj [])) "context" with
  | JUndefined | JArr _ | JStr _ => False
  | _ => True
  end ->
  exists e res,
    handler env req w = (Ok res, push [EvConsoleError e] w1) /\
    res_status res = 500 /\
    option_map (fun body => JS.get body "success") (res_body res) = Some (JBool false).
Proof.
  intros Hm Ha Hb Hact Hname Hbase Hctx.
  rewrite (handler_post env req b w Hm Ha Hb).
  unfold try_catch, route. cbv zeta. rewrite Hact.
  change (action_of (JStr "chat")) with (Some Chat). cbv iota.
  unfold requested_name in Hname, Hbase. rewrite Hname.
  change (negb true) with false. cbv iota.
  rewrite (bind_ok _ _ _ _ _ Hbase).
  unfold bind at 1. unfold chat_payload. cbv zeta. unfold bind at 1.
  destruct (JS.get (JS.or (JS.default (JS.get (JS.or b (JObj [])) "data") (JObj []))
                      (JObj [])) "context") as [| |x|x|x|x|x|];
    try contradiction; simpl; eexists _, _; (split; [reflexivity |]); split; reflexivity.
Qed.

Lemma chat_context_witness :
  exists e res,
    handler (Example.platform (Example.serving 200 None))
      (Example.post (JObj [("action", JStr "chat"); ("assistant_name", JStr "demo");
                              ("assistant_host", JStr "demo-abc.svc.pinecone.io");
                              ("data", JObj [("message", JStr "hello");
                                             ("context", JNull)])]))
      Example.idle = (Ok res, push [EvConsoleError e] Example.idle) /\
    res_status res = 500.
Proof.
  destruct (chat_context_must_be_iterable
              (Example.platform (Example.serving 200 None))
              (Example.post (JObj [("action", JStr "chat"); ("assistant_name", JStr "demo");
                              ("assistant_host", JStr "demo-abc.svc.pinecone.io");
                              ("data", JObj [("message", JStr "hello");
                                             ("context", JNull)])]))
              (JObj [("action", JStr "chat"); ("assistant_name", JStr "demo");
                 ("assistant_host", JStr "demo-abc.svc.pinecone.io");
                 ("data", JObj [("message", JStr "hello"); ("context", JNull)])])
              Example.idle Example.base Example.idle
              eq_refl eq_refl eq_refl eq_refl eq_refl eq_refl I)
    as (e & res & Hrun & Hst & _).
  exists e, res. split; [exact Hrun | exact Hst].
Defined.

(** X25. When the host cannot be resolved the action stops there: for chat,
    search, listFiles and deleteFile the error of the resolution is
    logged and answered (with the upstream status when it has one, 500
    otherwise), and nothing is called after it. *)
Theorem failed_resolution_stops_the_action env req b a w e w1 :
  method req = "POST" -> unauthorized env req = false ->
  parsed_body req = Some b ->
  action_of (JS.get (JS.or b (JObj [])) "action") = Some a ->
  match a with Chat | Search | ListFiles | DeleteFile => True | _ => False end ->
  JS.truthy (requested_name b) = true ->
  (a = DeleteFile ->
   JS.truthy (JS.get_opt (JS.default (JS.get (JS.or b (JObj [])) "data") (JObj []))
                "file_id") = true) ->
  resolve_base env (JS.get (JS.or b (JObj [])) "assistant_host") (requested_name b) w
  = (Throw e, w1) ->
  exists res,
    handler env req w = (Ok res, push [EvConsoleError e] w1) /\
    res_status res
    = match e with HttpError st _ _ => st | NativeError _ _ => 500 end.
Proof.
  intros Hm Ha Hb Hact Hres Hname Hfile Hbase.
  rewrite (handler_post env req b w Hm Ha Hb).
  unfold try_catch, route. cbv zeta. rewrite Hact.
  unfold requested_name in Hname, Hbase.
  destruct a; try contradiction; rewrite Hname;
    change (negb true) with false; cbv iota;
    try (rewrite (Hfile eq_refl); change (negb true) with false; cbv iota);
    unfold bind at 1; rewrite Hbase;
    destruct e; eexists; split; reflexivity.
Qed.

Lemma failed_resolution_stops_witness :
  exists res w',
    handler (Example.platform (Sample.failing 404))
      (Example.post (JObj [("action", JStr "chat"); ("assistant_name", JStr "demo");
                           ("data", JObj [("message", JStr "hello")])]))
      Example.idle = (Ok res, w') /\
    res_status res = 404 /\
    calls (trace w') = 1%nat.
Proof.
  destruct (failed_resolution_stops_the_action
              (Example.platform (Sample.failing 404))
              (Example.post (JObj [("action", JStr "chat");
                                   ("assistant_name", JStr "demo");
                                   ("data", JObj [("message", JStr "hello")])]))
              (JObj [("action", JStr "chat"); ("assistant_name", JStr "demo");
                     ("data", JObj [("message", JStr "hello")])])
              Chat Example.idle _ _
              eq_refl eq_refl eq_refl eq_refl I eq_refl
              ltac:(intros H; discriminate H)
              eq_refl) as (res & Hrun & Hst).
  exists res. eexists. split; [exact Hrun |]. split; [exact Hst | reflexivity].
Defined.

(** X26. A control-plane answer without a usable [host] does not resolve:
    when the discovery call returns a JSON body whose [host] is missing
    or falsy, the resolver throws [Assistant response missing 'host'],
    having read the body once and cached nothing. *)
Theorem discovery_requires_host env (name : string) w resp w1 data :
  (forall c, hostCache w !! KStr name = Some c -> expiresAt c <= clock w) ->
  doFetch env
    (mkRequest "GET" (assistants_url +:+ "/" +:+ JS.encodeURIComponent name)
       (get_headers env) None) 2 w = (Ok resp, w1) ->
  body_json resp = Some data -> JS.nullish data = false ->
  JS.truthy (JS.get data "host") = false ->
  getAssistantBase env (JStr name) w
  = (Throw (NativeError "Error" "Assistant response missing 'host'"),
     push [EvReadJson resp] w1) /\
  hostCache w1 = hostCache w.
Proof.
  intros Hmiss Hf Hbody Hobj Hhost. split.
  - rewrite (getAssistantBase_miss env name w Hmiss). unfold discover.
    rewrite (bind_ok (encode (JStr name)) _ w (JS.encodeURIComponent name) w eq_refl).
    rewrite (bind_ok _ _ _ _ _ Hf).
    erewrite bind_ok by (rewrite resp_json_eq, Hbody; reflexivity).
    erewrite bind_ok by (unfold get_prop; rewrite Hobj; reflexivity).
    now rewrite Hhost.
  - now destruct (doFetch_counts env _ _ _ _ Hf) as (_ & Hcache & _).
Qed.

Lemma discovery_requires_host_witness :
  exists w',
    getAssistantBase (Example.platform Sample.flaky) (JStr "demo") Example.idle
    = (Throw (NativeError "Error" "Assistant response missing 'host'"), w') /\
    hostCache w' = hostCache Example.idle /\
    attempts (trace w') = 2%nat.
Proof.
  eexists. split.
  - refine (proj1 (discovery_requires_host (Example.platform Sample.flaky) "demo"
                     Example.idle
                     (mkResponse 200 "OK"
                        (assistants_url +:+ "/" +:+ JS.encodeURIComponent "demo")
                        None (Some (JObj [])) None)
                     _ (JObj []) _ eq_refl eq_refl eq_refl eq_refl)).
    intros c Hc. discriminate Hc.
  - split; reflexivity.
Defined.

(** ** The normaliser *)

(** X27. A trailing slash on the host makes no difference: on every host
    of the modelled fragment without query and fragment,
    [normalizeAssistantBase] returns a base, and the same base for [h]
    and for [h/]. *)
Theorem normalizeAssistantBase_ignores_trailing_slash h sch host p :
  plain_url h sch host p ->
  exists s,
    normalizeAssistantBase h = Some s /\
    normalizeAssistantBase (h +:+ "/") = Some s.
Proof.
  intros Hurl. eexists. split; [exact (normalize_plain_url _ _ _ _ Hurl) |].
  rewrite (normalize_plain_url _ _ _ _ (plain_url_slash _ _ _ _ Hurl)).
  now rewrite assistant_path_slash.
Qed.

Lemma normalizeAssistantBase_trailing_slash_witness :
  normalizeAssistantBase "demo-abc.svc.pinecone.io"
  = Some "https://demo-abc.svc.pinecone.io/assistant" /\
  normalizeAssistantBase "demo-abc.svc.pinecone.io/"
  = Some "https://demo-abc.svc.pinecone.io/assistant".
Proof.
  destruct (normalizeAssistantBase_ignores_trailing_slash
              "demo-abc.svc.pinecone.io" "https" "demo-abc.svc.pinecone.io" ""
              (conj eq_refl
                 (conj eq_refl
                    (conj (or_introl eq_refl)
                       (or_intror (conj eq_refl (conj eq_refl eq_refl)))))))
    as (s & Hs & Hslash).
  split; [reflexivity |].
  exact (eq_trans Hslash (eq_trans (eq_sym Hs) eq_refl)).
Defined.
